(** * BitEye scanner: the computation core of [src/app/page.tsx]

    The page component fetches two pages of ranked market rows, merges
    them, derives the 15m and 4h changes from the sparkline, sorts the
    rows by a selectable column and raises an alert when a fast horizon
    crosses its threshold.  This file embeds those functions and states
    the properties of the data pipeline about them.

    Numbers.  A JavaScript [number] that comes out of a JSON payload is a
    finite double.  It is modelled by an exact rational ([Q]): sign tests,
    comparisons, the choice of the reference sample and the [null] cases
    are those of the code.  The quotient and the rounding of the
    derivation are results of double arithmetic: [change_from] and
    [JS.toFixed4] compute them exactly, and are used for the properties
    that double arithmetic keeps (sign, floor, zero, availability); where
    the value itself is stated, the arithmetic of the host is a parameter
    ([change15m_by], [change4h_by]).  [-Infinity], which the sort uses for
    a missing value, is a constructor of its own ([jsnum]).  [null] is
    [None]. *)

From Stdlib Require Import ZArith QArith Qabs Qround List String Bool Lia Lqa.
From Stdlib Require Import Permutation Sorted.
Import ListNotations.

Open Scope Z_scope.
Open Scope Q_scope.

(** ** JavaScript primitives used by the page *)

Module JS.

(** [a < b] and [a >= b] on finite numbers. *)
Definition ltb (a b : Q) : bool := negb (Qle_bool b a).
Definition geb (a b : Q) : bool := Qle_bool b a.
Definition gtb (a b : Q) : bool := ltb b a.

(** A finite number is falsy exactly when it is zero. *)
Definition truthy (a : Q) : bool := negb (Qeq_bool a 0).

(** [arr[i]] for an integer index [i]: [undefined] ([None]) when [i] is
    negative or past the end. *)
Definition index {A : Type} (arr : list A) (i : Z) : option A :=
  if (i <? 0)%Z then None else nth_error arr (Z.to_nat i).

(** [arr.length] *)
Definition length {A : Type} (arr : list A) : Z := Z.of_nat (List.length arr).

(** [x || y] where [x] may be [undefined] and [y] may be too. *)
Definition or_else (x y : option Q) : option Q :=
  match x with
  | Some p => if truthy p then Some p else y
  | None => y
  end.

(** [x || y] where [y] is a number. *)
Definition or_num (x : option Q) (y : Q) : Q :=
  match x with
  | Some p => if truthy p then p else y
  | None => y
  end.

(** [Number(x.toFixed(4))] on an exact value: [toFixed] takes the integer
    [n] for which [n / 10^4] is closest to [|x|], the larger one on a tie,
    and puts the sign back. *)
Definition toFixed4 (x : Q) : Q :=
  let n := Qfloor (Qabs x * 10000 + (1 # 2)) in
  if ltb x 0 then Qmake (- n) 10000 else Qmake n 10000.

(** [Math.abs] *)
Definition abs (x : Q) : Q := Qabs x.

(** A sort key: a finite number or [-Infinity]. *)
Inductive jsnum : Type :=
| NegInf : jsnum
| Num : Q -> jsnum.

(** [x ?? -Infinity] *)
Definition or_neg_inf (x : option Q) : jsnum :=
  match x with
  | Some q => Num q
  | None => NegInf
  end.

(** [a < b] and [a > b] on sort keys. *)
Definition num_ltb (a b : jsnum) : bool :=
  match a, b with
  | NegInf, NegInf => false
  | NegInf, Num _ => true
  | Num _, NegInf => false
  | Num x, Num y => ltb x y
  end.
Definition num_gtb (a b : jsnum) : bool := num_ltb b a.

(** [ToNumber] of a field that holds an integer or [null]. *)
Definition to_number (x : option Z) : Z :=
  match x with
  | Some z => z
  | None => 0%Z
  end.

End JS.

(** ** Data model *)

(** A row as the provider returns it (interface [Coin] without the two
    derived fields). *)
Record RawCoin : Type := mkRawCoin {
  id : string;
  symbol : string;
  name : string;
  current_price : Q;
  market_cap : Q;
  total_volume : Q;
  price_change_percentage_1h_in_currency : option Q;
  price_change_percentage_24h_in_currency : option Q;
  price_change_percentage_7d_in_currency : option Q;
  sparkline_in_7d : option (list Q);
  market_cap_rank : option Z
}.

(** [{ ...coin, price_change_15m, price_change_4h }] *)
Record Coin : Type := mkCoin {
  row :> RawCoin;
  price_change_15m : option Q;
  price_change_4h : option Q
}.

(** ** Momentum derivation (the [.map] callback of [fetchData]) *)

(** [coin.sparkline_in_7d?.price || []] *)
Definition prices_of (coin : RawCoin) : list Q :=
  match sparkline_in_7d coin with
  | Some p => p
  | None => []
  end.

(** [prices[prices.length - 15] || nowPrice] *)
Definition price15mAgo (prices : list Q) (nowPrice : Q) : Q :=
  JS.or_num (JS.index prices (JS.length prices - 15)) nowPrice.

(** [prices[prices.length - 34] || prices[prices.length - 30] || nowPrice] *)
Definition price4hAgo (prices : list Q) (nowPrice : Q) : Q :=
  JS.or_num
    (JS.or_else (JS.index prices (JS.length prices - 34))
                (JS.index prices (JS.length prices - 30)))
    nowPrice.

(** [ref > 0 ? ((nowPrice - ref) / ref) * 100 : null], the quotient taken
    exactly. *)
Definition change_from (ref nowPrice : Q) : option Q :=
  if JS.gtb ref 0 then Some (((nowPrice - ref) / ref) * 100) else None.

(** [change !== null ? Number(change.toFixed(4)) : null] *)
Definition rounded (change : option Q) : option Q :=
  match change with
  | Some c => Some (JS.toFixed4 c)
  | None => None
  end.

Definition change15m (prices : list Q) (nowPrice : Q) : option Q :=
  rounded (change_from (price15mAgo prices nowPrice) nowPrice).

Definition change4h (prices : list Q) (nowPrice : Q) : option Q :=
  rounded (change_from (price4hAgo prices nowPrice) nowPrice).

Definition derive (coin : RawCoin) : Coin :=
  let prices := prices_of coin in
  let nowPrice := current_price coin in
  {| row := coin;
     price_change_15m := change15m prices nowPrice;
     price_change_4h := change4h prices nowPrice |}.

(** ** [Array.prototype.sort]

    The routine belongs to the engine, not to the page.  ECMAScript fixes
    neither the sequence of calls to the comparison function nor, for a
    comparison function that is not consistent, the resulting order.  The
    model is the insertion sort of V8 (the engine of Node.js and of
    Chrome): every element in turn is the pivot, it is compared as
    [comparefn(pivot, e)] with the elements [e] already placed, from the
    last one down, and moves in front of [e] while the answer is
    negative. *)

Module Array.
Section Sort.
Context {A : Type}.
Variable comparefn : A -> A -> Z.

(** [placed] holds the elements already in order, the last one first. *)
Fixpoint place (pivot : A) (placed : list A) : list A :=
  match placed with
  | [] => [pivot]
  | e :: rest =>
      if (comparefn pivot e <? 0)%Z then e :: place pivot rest
      else pivot :: placed
  end.

Definition sort (arr : list A) : list A :=
  rev (fold_left (fun placed pivot => place pivot placed) arr []).

End Sort.
End Array.

(** ** Merge step of [fetchData] *)

(** [(a, b) => a.market_cap_rank - b.market_cap_rank]; a [null] rank
    counts as [0] in the subtraction. *)
Definition by_rank (a b : RawCoin) : Z :=
  (JS.to_number (market_cap_rank a) - JS.to_number (market_cap_rank b))%Z.

(** [[...page1.data, ...page2.data].sort(by_rank).map(derive)] *)
Definition allCoins (data1 data2 : list RawCoin) : list Coin :=
  map derive (Array.sort by_rank (data1 ++ data2)).

(** ** Sorting the table ([sortedCoins]) *)

Inductive SortKey : Type :=
| key_rank | key_price | key_15m | key_1h | key_4h | key_24h | key_7d
| key_market_cap | key_volume.

Inductive SortOrder : Type := asc | desc.

(** The [switch (sortKey)] of the comparison function, for one of the two
    rows. *)
Definition sort_value (sortKey : SortKey) (c : Coin) : JS.jsnum :=
  match sortKey with
  | key_rank => JS.Num (inject_Z (JS.to_number (market_cap_rank c)))
  | key_price => JS.Num (current_price c)
  | key_15m => JS.or_neg_inf (price_change_15m c)
  | key_1h => JS.or_neg_inf (price_change_percentage_1h_in_currency c)
  | key_4h => JS.or_neg_inf (price_change_4h c)
  | key_24h => JS.or_neg_inf (price_change_percentage_24h_in_currency c)
  | key_7d => JS.or_neg_inf (price_change_percentage_7d_in_currency c)
  | key_market_cap => JS.Num (market_cap c)
  | key_volume => JS.Num (total_volume c)
  end.

(** [sortOrder === 'asc' ? (aVal > bVal ? 1 : -1) : (aVal < bVal ? 1 : -1)] *)
Definition compare_coins (sortKey : SortKey) (sortOrder : SortOrder)
  (a b : Coin) : Z :=
  let aVal := sort_value sortKey a in
  let bVal := sort_value sortKey b in
  match sortOrder with
  | asc => if JS.num_gtb aVal bVal then 1%Z else (-1)%Z
  | desc => if JS.num_ltb aVal bVal then 1%Z else (-1)%Z
  end.

(** [[...coins].sort(compare_coins)] *)
Definition sortedCoins (coins : list Coin) (sortKey : SortKey)
  (sortOrder : SortOrder) : list Coin :=
  Array.sort (compare_coins sortKey sortOrder) coins.

(** ** Thresholds, alert and cell classes *)

Inductive Timeframe : Type := tf_15m | tf_1h | tf_4h | tf_24h | tf_7d.

Record Thresholds : Type := mkThresholds {
  th_15m : Q; th_1h : Q; th_4h : Q; th_24h : Q; th_7d : Q
}.

Definition defaultThresholds : Thresholds :=
  {| th_15m := 3; th_1h := 5; th_4h := 10; th_24h := 15; th_7d := 40 |}.

(** [userThresholds[tf]] *)
Definition threshold (userThresholds : Thresholds) (tf : Timeframe) : Q :=
  match tf with
  | tf_15m => th_15m userThresholds
  | tf_1h => th_1h userThresholds
  | tf_4h => th_4h userThresholds
  | tf_24h => th_24h userThresholds
  | tf_7d => th_7d userThresholds
  end.

(** [v !== null && Math.abs(v) >= t] *)
Definition crosses (v : option Q) (t : Q) : bool :=
  match v with
  | Some x => JS.geb (JS.abs x) t
  | None => false
  end.

(** The [coins.some(...)] of the alert effect. *)
Definition bigMove (coins : list Coin) (userThresholds : Thresholds) : bool :=
  existsb (fun c =>
    crosses (price_change_15m c) (threshold userThresholds tf_15m)
    || crosses (price_change_percentage_1h_in_currency c)
               (threshold userThresholds tf_1h)
    || crosses (price_change_4h c) (threshold userThresholds tf_4h)) coins.

(** What the alert effect does to the outside world. *)
Inductive Effect : Type := PlayAudio.

(** [playAlert]: the sound is played only when [soundEnabled]. *)
Definition playAlert (soundEnabled : bool) : list Effect :=
  if soundEnabled then [PlayAudio] else [].

(** [if (bigMove) playAlert()] *)
Definition alertEffect (coins : list Coin) (userThresholds : Thresholds)
  (soundEnabled : bool) : list Effect :=
  if bigMove coins userThresholds then playAlert soundEnabled else [].

Definition class_neutral : string := "text-gray-400".
Definition class_positive_flagged : string :=
  "bg-green-100 text-green-800 font-bold animate-pulse".
Definition class_negative_flagged : string :=
  "bg-red-100 text-red-800 font-bold animate-pulse".
Definition class_positive_normal : string := "text-green-600".
Definition class_negative_normal : string := "text-red-600".

(** [getChangeClass] of the component (lines 366-372). *)
Definition getChangeClass (userThresholds : Thresholds) (val : option Q)
  (tf : Timeframe) : string :=
  match val with
  | None => class_neutral
  | Some v =>
      let abs := JS.abs v in
      let thresh := threshold userThresholds tf in
      if JS.geb abs thresh then
        if JS.gtb v 0 then class_positive_flagged else class_negative_flagged
      else
        if JS.gtb v 0 then class_positive_normal else class_negative_normal
  end.

(** The classes that mark a cell as flagged. *)
Definition flagged (cls : string) : bool :=
  String.eqb cls class_positive_flagged || String.eqb cls class_negative_flagged.

(** The classifier of the earlier revision of the page (lines 105-113):
    fixed thresholds for 1h, 24h and 7d, and a falsy test, which a [null]
    and a zero change both take. *)
Module V1.

Inductive Timeframe : Type := tf_1h | tf_24h | tf_7d.

Definition thresholds (timeframe : Timeframe) : Q :=
  match timeframe with
  | tf_1h => 5
  | tf_24h => 15
  | tf_7d => 40
  end.

(** [!change] *)
Definition falsy (change : option Q) : bool :=
  match change with
  | None => true
  | Some c => negb (JS.truthy c)
  end.

Definition getChangeClass (change : option Q) (timeframe : Timeframe)
  : string :=
  if falsy change then "text-gray-400"%string
  else
    match change with
    | None => "text-gray-400"%string
    | Some c =>
        let threshold := thresholds timeframe in
        let abs := JS.abs c in
        if JS.geb abs threshold then
          if JS.gtb c 0 then "bg-green-100 text-green-800 font-bold"%string
          else "bg-red-100 text-red-800 font-bold"%string
        else
          if JS.gtb c 0 then "text-green-600"%string
          else "text-red-600"%string
    end.

End V1.

(** ** Component state and the fetch cycle *)

Record State : Type := mkState {
  coins : list Coin;
  loading : bool;
  error : string;
  lastUpdate : option Z;
  soundEnabled : bool;
  sortKey : SortKey;
  sortOrder : SortOrder;
  userThresholds : Thresholds
}.

(** The state of the component when it mounts. *)
Definition initialState : State :=
  {| coins := []; loading := true; error := ""; lastUpdate := None;
     soundEnabled := true; sortKey := key_rank; sortOrder := desc;
     userThresholds := defaultThresholds |}.

(** The table shown: [sortedCoins] is recomputed from [coins], [sortKey]
    and [sortOrder] (the dependencies of its [useMemo]). *)
Definition table (s : State) : list Coin :=
  sortedCoins (coins s) (sortKey s) (sortOrder s).

(** How one [axios.get] of the cycle ends.  The promise is rejected on a
    network error or when the timeout expires; it is fulfilled with a
    body, whose [data] is here the array of rows or something that cannot
    be spread ([None]).  Bodies that can be spread without being arrays of
    rows (a string) are the matter of [Untyped] below. *)
Inductive Rejection : Type := NetworkError | TimeoutExceeded.

Inductive Response : Type :=
| Fulfilled (data : option (list RawCoin))
| Rejected (reason : Rejection).

(** Statements of [fetchData] run in a state monad with an exception: a
    [throw] keeps the writes made before it. *)
Module Run.

Inductive Completion (A : Type) : Type :=
| Normal (a : A)
| Throw.
Arguments Normal {A} a.
Arguments Throw {A}.

Definition M (A : Type) : Type := State -> Completion A * State.

Definition ret {A : Type} (a : A) : M A := fun s => (Normal a, s).

Definition throw {A : Type} : M A := fun s => (Throw, s).

Definition bind {A B : Type} (m : M A) (k : A -> M B) : M B :=
  fun s =>
    match m s with
    | (Normal a, s') => k a s'
    | (Throw, s') => (Throw, s')
    end.

(** [try { body } catch { handler }] *)
Definition try_catch (body handler : M unit) : M unit :=
  fun s =>
    match body s with
    | (Normal a, s') => (Normal a, s')
    | (Throw, s') => handler s'
    end.

Definition setCoins (v : list Coin) : M unit := fun s =>
  (Normal tt,
   {| coins := v; loading := loading s; error := error s;
      lastUpdate := lastUpdate s; soundEnabled := soundEnabled s;
      sortKey := sortKey s; sortOrder := sortOrder s;
      userThresholds := userThresholds s |}).

Definition setLoading (v : bool) : M unit := fun s =>
  (Normal tt,
   {| coins := coins s; loading := v; error := error s;
      lastUpdate := lastUpdate s; soundEnabled := soundEnabled s;
      sortKey := sortKey s; sortOrder := sortOrder s;
      userThresholds := userThresholds s |}).

Definition setError (v : string) : M unit := fun s =>
  (Normal tt,
   {| coins := coins s; loading := loading s; error := v;
      lastUpdate := lastUpdate s; soundEnabled := soundEnabled s;
      sortKey := sortKey s; sortOrder := sortOrder s;
      userThresholds := userThresholds s |}).

Definition setLastUpdate (v : option Z) : M unit := fun s =>
  (Normal tt,
   {| coins := coins s; loading := loading s; error := error s;
      lastUpdate := v; soundEnabled := soundEnabled s;
      sortKey := sortKey s; sortOrder := sortOrder s;
      userThresholds := userThresholds s |}).

(** [await Promise.all([get1, get2])]: rejected as soon as one of the two
    requests is. *)
Definition promise_all (r1 r2 : Response)
  : M (option (list RawCoin) * option (list RawCoin)) :=
  match r1, r2 with
  | Fulfilled d1, Fulfilled d2 => ret (d1, d2)
  | _, _ => throw
  end.

(** [[...page1.data, ...page2.data]]: spreading something that is not
    iterable throws. *)
Definition spread_both (d1 d2 : option (list RawCoin)) : M (list RawCoin) :=
  match d1, d2 with
  | Some l1, Some l2 => ret (l1 ++ l2)
  | _, _ => throw
  end.

End Run.

Declare Scope run_scope.
Delimit Scope run_scope with run.
Notation "x <- m ;; k" := (Run.bind m (fun x => k))
  (at level 100, m at next level, right associativity) : run_scope.
Notation "m ;;; k" := (Run.bind m (fun _ => k))
  (at level 100, right associativity) : run_scope.

(** [fetchData]; [now] is the value of [new Date()] and [r1], [r2] are the
    outcomes of the two requests. *)
Definition fetchData (now : Z) (r1 r2 : Response) : Run.M unit :=
  Run.try_catch
    (Run.setLoading true ;;;
     Run.setError "" ;;;
     pages <- Run.promise_all r1 r2 ;;
     merged <- Run.spread_both (fst pages) (snd pages) ;;
     let allCoins :=
       map derive (Array.sort by_rank merged) in
     Run.setCoins allCoins ;;;
     Run.setLastUpdate (Some now) ;;;
     Run.setLoading false)%run
    (Run.setError "Failed to load data — retrying..." ;;;
     Run.setLoading false)%run.

(** The state in which a cycle leaves the component. *)
Definition cycle (s : State) (now : Z) (r1 r2 : Response) : State :=
  snd (fetchData now r1 r2 s).

(** A cycle fails when a request is rejected or its body cannot be
    spread. *)
Definition failed (r : Response) : bool :=
  match r with
  | Fulfilled (Some _) => false
  | _ => true
  end.

(** ** The claims of the specification, in its own words

    Definitions of this module follow the text of the specification; they
    are compared with the definitions above, which follow the code. *)

Module Spec.

(** Derivation (4.1 and 8): for a series [[p0..pn]] the reference is
    [p_(n-k)], [k] being the number of sampling steps in the horizon; [p0]
    when the series is shorter; unavailable for an empty series or a
    reference that is not positive. *)
Definition derive (k : nat) (series : list Q) (current : Q) : option Q :=
  match series with
  | [] => None
  | p0 :: _ =>
      let n := (List.length series - 1)%nat in
      let ref := if (n <? k)%nat then p0 else nth (n - k) series p0 in
      if JS.gtb ref 0 then Some (JS.toFixed4 (((current - ref) / ref) * 100))
      else None
  end.

(** Deduplication by [id], the first occurrence kept. *)
Fixpoint dedup (seen : list string) (rows : list RawCoin) : list RawCoin :=
  match rows with
  | [] => []
  | r :: rest =>
      if existsb (String.eqb (id r)) seen then dedup seen rest
      else r :: dedup (id r :: seen) rest
  end.

Definition has_rank (r : RawCoin) : bool :=
  match market_cap_rank r with
  | Some _ => true
  | None => false
  end.

(** Merge (4.3): concatenate, deduplicate by [id], exclude the rows
    without a rank, order by ascending rank. *)
Definition merge (page1 page2 : list RawCoin) : list RawCoin :=
  Array.sort by_rank (filter has_rank (dedup [] (page1 ++ page2))).

(** Snapshot invariant (3): the ranks are [1..N]. *)
Definition ranks_1_to (N : nat) (snapshot : list Coin) : Prop :=
  map (fun c : Coin => market_cap_rank c) snapshot
  = map (fun i => Some (Z.of_nat i)) (seq 1 N).

End Spec.

(** ** Vocabulary of the statements *)

(** The number the rank comparison sees. *)
Definition rank_number (r : RawCoin) : Z := JS.to_number (market_cap_rank r).

(** Ascending rank. *)
Definition rank_le (a b : RawCoin) : Prop := (rank_number a <= rank_number b)%Z.

(** Ascending rank, on the field itself. *)
Definition option_rank_le (a b : option Z) : Prop :=
  (JS.to_number a <= JS.to_number b)%Z.

(** The ranks [1..N]. *)
Definition ranks_up_to (N : nat) : list (option Z) :=
  map (fun i => Some (Z.of_nat i)) (seq 1 N).

(** [a <= b] on sort keys. *)
Definition num_le (a b : JS.jsnum) : Prop := JS.num_ltb b a = false.

(** Two sort keys that neither [<] nor [>] separates. *)
Definition tie (a b : JS.jsnum) : Prop :=
  JS.num_ltb a b = false /\ JS.num_ltb b a = false.

(** [a] may stand before [b] in the table sorted by [sortKey] in
    direction [sortOrder]. *)
Definition in_order (sortKey : SortKey) (sortOrder : SortOrder)
  (a b : Coin) : Prop :=
  match sortOrder with
  | asc => num_le (sort_value sortKey a) (sort_value sortKey b)
  | desc => num_le (sort_value sortKey b) (sort_value sortKey a)
  end.

(** The change of a row on a horizon. *)
Definition change_value (tf : Timeframe) (c : Coin) : option Q :=
  match tf with
  | tf_15m => price_change_15m c
  | tf_1h => price_change_percentage_1h_in_currency c
  | tf_4h => price_change_4h c
  | tf_24h => price_change_percentage_24h_in_currency c
  | tf_7d => price_change_percentage_7d_in_currency c
  end.

(** The sort key of a horizon column. *)
Definition key_of (tf : Timeframe) : SortKey :=
  match tf with
  | tf_15m => key_15m
  | tf_1h => key_1h
  | tf_4h => key_4h
  | tf_24h => key_24h
  | tf_7d => key_7d
  end.

(** The horizons wired to the alert. *)
Definition fast (tf : Timeframe) : bool :=
  match tf with
  | tf_15m | tf_1h | tf_4h => true
  | _ => false
  end.

(** [x] stands somewhere before [y] in [l]. *)
Definition before {A : Type} (l : list A) (x y : A) : Prop :=
  exists l1 l2 l3, l = l1 ++ x :: l2 ++ y :: l3.

(** Sort stability as the specification words it (4.4 and 8): two assets
    whose values under the active key are equal stand in ascending rank. *)
Definition ties_by_ascending_rank (sortKey : SortKey) (table : list Coin)
  : Prop :=
  forall x y : Coin,
    before table x y ->
    tie (sort_value sortKey x) (sort_value sortKey y) ->
    (rank_number x <= rank_number y)%Z.

(** ** Sample data used to run the definitions *)

Definition sample_row (i : string) (rank : option Z) (price : Q)
  (series : option (list Q)) : RawCoin :=
  {| id := i; symbol := i; name := i;
     current_price := price; market_cap := 1000; total_volume := 10;
     price_change_percentage_1h_in_currency := None;
     price_change_percentage_24h_in_currency := None;
     price_change_percentage_7d_in_currency := None;
     sparkline_in_7d := series;
     market_cap_rank := rank |}.

(** A series of 15 samples, the oldest at 50. *)
Definition series15 : list Q := 50 :: repeat 100 14.



(** Two rows of equal price, ranks 1 and 2, and the snapshot made of them. *)
Definition row_a : RawCoin := sample_row "aaa" (Some 1%Z) 100 None.
Definition row_b : RawCoin := sample_row "bbb" (Some 2%Z) 100 None.
Definition coin_a : Coin := derive row_a.
Definition coin_b : Coin := derive row_b.
Definition snapshot_ab : list Coin := allCoins [row_a] [row_b].

(** A row whose 1h change is 7, rank 3. *)
Definition row_c : RawCoin :=
  {| id := "ccc"; symbol := "ccc"; name := "ccc";
     current_price := 20; market_cap := 500; total_volume := 5;
     price_change_percentage_1h_in_currency := Some 7;
     price_change_percentage_24h_in_currency := None;
     price_change_percentage_7d_in_currency := None;
     sparkline_in_7d := None;
     market_cap_rank := Some 3%Z |}.
Definition coin_c : Coin := derive row_c.

(** Two rows with the same [id], and a row without a rank. *)
Definition row_dup1 : RawCoin := sample_row "btc" (Some 1%Z) 100 None.
Definition row_dup2 : RawCoin := sample_row "btc" (Some 2%Z) 100 None.
Definition row_rankless : RawCoin := sample_row "xyz" None 100 None.

(** Two pages of one row each, ranks 1 and 3, both fulfilled. *)
Definition row_r1 : RawCoin := sample_row "one" (Some 1%Z) 100 None.
Definition row_r3 : RawCoin := sample_row "three" (Some 3%Z) 100 None.
Definition snapshot_gap : list Coin :=
  coins (cycle initialState 0 (Fulfilled (Some [row_r1]))
                             (Fulfilled (Some [row_r3]))).

(** A state that holds a snapshot and the time of its capture. *)
Definition state_ab : State :=
  {| coins := snapshot_ab; loading := false; error := "";
     lastUpdate := Some 1%Z; soundEnabled := true; sortKey := key_rank;
     sortOrder := desc; userThresholds := defaultThresholds |}.

(** The component with the sound switched off, holding a snapshot in which
    one asset moved 7 percent in the hour. *)
Definition state_muted : State :=
  {| coins := [coin_a; coin_c; coin_b]; loading := false; error := "";
     lastUpdate := Some 1%Z; soundEnabled := false; sortKey := key_rank;
     sortOrder := desc; userThresholds := defaultThresholds |}.

(** The relation read from right to left. *)
Definition converse {A : Type} (R : A -> A -> Prop) : A -> A -> Prop :=
  fun a b => R b a.

(** ** The other handlers of the component *)

(** The string a sort key is in the source. *)
Definition key_name (k : SortKey) : string :=
  match k with
  | key_rank => "rank"
  | key_price => "price"
  | key_15m => "15m"
  | key_1h => "1h"
  | key_4h => "4h"
  | key_24h => "24h"
  | key_7d => "7d"
  | key_market_cap => "market_cap"
  | key_volume => "volume"
  end.

(** [p => p === 'asc' ? 'desc' : 'asc'] *)
Definition flip_order (p : SortOrder) : SortOrder :=
  match p with
  | asc => desc
  | desc => asc
  end.

(** [handleSort]: a click on the column that is active flips the
    direction; a click on another column selects it, descending. *)
Definition handleSort (key : SortKey) (s : State) : State :=
  if String.eqb (key_name (sortKey s)) (key_name key) then
    {| coins := coins s; loading := loading s; error := error s;
       lastUpdate := lastUpdate s; soundEnabled := soundEnabled s;
       sortKey := sortKey s; sortOrder := flip_order (sortOrder s);
       userThresholds := userThresholds s |}
  else
    {| coins := coins s; loading := loading s; error := error s;
       lastUpdate := lastUpdate s; soundEnabled := soundEnabled s;
       sortKey := key; sortOrder := desc;
       userThresholds := userThresholds s |}.

(** [setSoundEnabled(!soundEnabled)] of the sound button. *)
Definition toggleSound (s : State) : State :=
  {| coins := coins s; loading := loading s; error := error s;
     lastUpdate := lastUpdate s; soundEnabled := negb (soundEnabled s);
     sortKey := sortKey s; sortOrder := sortOrder s;
     userThresholds := userThresholds s |}.

(** [{ ...p, [tf]: v }] *)
Definition with_threshold (p : Thresholds) (tf : Timeframe) (v : Q)
  : Thresholds :=
  match tf with
  | tf_15m => {| th_15m := v; th_1h := th_1h p; th_4h := th_4h p;
                 th_24h := th_24h p; th_7d := th_7d p |}
  | tf_1h => {| th_15m := th_15m p; th_1h := v; th_4h := th_4h p;
                th_24h := th_24h p; th_7d := th_7d p |}
  | tf_4h => {| th_15m := th_15m p; th_1h := th_1h p; th_4h := v;
                th_24h := th_24h p; th_7d := th_7d p |}
  | tf_24h => {| th_15m := th_15m p; th_1h := th_1h p; th_4h := th_4h p;
                 th_24h := v; th_7d := th_7d p |}
  | tf_7d => {| th_15m := th_15m p; th_1h := th_1h p; th_4h := th_4h p;
                th_24h := th_24h p; th_7d := v |}
  end.

(** [setUserThresholds(p => ({ ...p, [tf]: +e.target.value }))] of the
    slider of horizon [tf], [v] being the number the slider holds. *)
Definition slide (tf : Timeframe) (v : Q) (s : State) : State :=
  {| coins := coins s; loading := loading s; error := error s;
     lastUpdate := lastUpdate s; soundEnabled := soundEnabled s;
     sortKey := sortKey s; sortOrder := sortOrder s;
     userThresholds := with_threshold (userThresholds s) tf v |}.

(** What happens to the mounted component: a fetch cycle runs from its
    start to its end, a column header is clicked, the sound button is
    clicked, a slider is moved.  Cycles are taken one after the other, as
    the timer of the mount effect runs them (the requests time out after
    15 s, the timer fires every 60 s); a Refresh click while a cycle is
    still in flight, which lets two cycles overlap, is not an event of
    this model. *)
Inductive Event : Type :=
| CycleDone (now : Z) (r1 r2 : Response)
| ClickColumn (key : SortKey)
| ClickSound
| MoveSlider (tf : Timeframe) (v : Q).

Definition step (s : State) (e : Event) : State :=
  match e with
  | CycleDone now r1 r2 => cycle s now r1 r2
  | ClickColumn key => handleSort key s
  | ClickSound => toggleSound s
  | MoveSlider tf v => slide tf v s
  end.

(** The component after a sequence of events. *)
Definition run (s : State) (events : list Event) : State :=
  fold_left step events s.

(** The pages and the time of a cycle that succeeded. *)
Definition success_of (e : Event) : option (Z * list RawCoin * list RawCoin) :=
  match e with
  | CycleDone now (Fulfilled (Some d1)) (Fulfilled (Some d2)) =>
      Some (now, d1, d2)
  | _ => None
  end.

(** The last cycle of [events] that succeeded. *)
Fixpoint last_success (events : list Event)
  : option (Z * list RawCoin * list RawCoin) :=
  match events with
  | [] => None
  | e :: rest =>
      match last_success rest with
      | Some x => Some x
      | None => success_of e
      end
  end.

(** Whether the last cycle of [events] failed ([None]: no cycle at all). *)
Fixpoint last_cycle_failed (events : list Event) : option bool :=
  match events with
  | [] => None
  | e :: rest =>
      match last_cycle_failed rest with
      | Some b => Some b
      | None =>
          match e with
          | CycleDone _ r1 r2 => Some (failed r1 || failed r2)
          | _ => None
          end
      end
  end.

(** ** The fetch cycle of the earlier revision (lines 33-84)

    The two pages are awaited one after the other, the rows carry no
    derived fields, and the message of the [catch] differs. *)

Module V1Cycle.

Record State : Type := mkState {
  coins : list RawCoin;
  loading : bool;
  error : string;
  lastUpdate : option Z
}.

Definition initialState : State :=
  {| coins := []; loading := true; error := ""; lastUpdate := None |}.

(** [await axios.get(...)]: the rows of the body, or a throw. *)
Definition await (r : Response) : option (option (list RawCoin)) :=
  match r with
  | Fulfilled data => Some data
  | Rejected _ => None
  end.

(** The [catch] block, run in the state the [try] block left. *)
Definition catch (s : State) : State :=
  {| coins := coins s; loading := false;
     error := "Failed to fetch data. Retrying...";
     lastUpdate := lastUpdate s |}.

(** [fetchData]: [setLoading(true); setError('')], then the first request,
    then the second, then the merge. *)
Definition fetchData (now : Z) (r1 r2 : Response) (s : State) : State :=
  let s0 := {| coins := coins s; loading := true; error := "";
               lastUpdate := lastUpdate s |} in
  match await r1 with
  | None => catch s0
  | Some page1 =>
      match await r2 with
      | None => catch s0
      | Some page2 =>
          match page1, page2 with
          | Some data1, Some data2 =>
              let allCoins := Array.sort by_rank (data1 ++ data2) in
              {| coins := allCoins; loading := false; error := "";
                 lastUpdate := Some now |}
          | _, _ => catch s0
          end
      end
  end.

End V1Cycle.

(** The thresholds of the earlier revision are those of the three
    horizons it has. *)
Definition timeframe_of_V1 (timeframe : V1.Timeframe) : Timeframe :=
  match timeframe with
  | V1.tf_1h => tf_1h
  | V1.tf_24h => tf_24h
  | V1.tf_7d => tf_7d
  end.

(** The rows of a state of the component are those of a state of the
    earlier revision, captured at the same time. *)
Definition same_rows (s : State) (s1 : V1Cycle.State) : Prop :=
  map row (coins s) = V1Cycle.coins s1
  /\ lastUpdate s = V1Cycle.lastUpdate s1.

(** No two distinct assets of [snapshot] have equal values under [k]. *)
Definition no_ties (k : SortKey) (snapshot : list Coin) : Prop :=
  forall a b, In a snapshot -> In b snapshot ->
    tie (sort_value k a) (sort_value k b) -> a = b.

(** The rows of rank number [r]. *)
Definition of_rank (r : Z) (rows : list RawCoin) : list RawCoin :=
  filter (fun x => (rank_number x =? r)%Z) rows.

(** The exact change against a reference. *)
Definition exact_change (ref nowPrice : Q) : Q :=
  ((nowPrice - ref) / ref) * 100.

(** A state on which the price column is active, ascending. *)
Definition state_price_asc : State :=
  {| coins := [coin_a; coin_c]; loading := false; error := "";
     lastUpdate := Some 1%Z; soundEnabled := true; sortKey := key_price;
     sortOrder := asc; userThresholds := defaultThresholds |}.

(** Rows of ranks 1, 1 and 2: two pages that share a rank. *)
Definition row_p1 : RawCoin := sample_row "first" (Some 1%Z) 100 None.
Definition row_p2 : RawCoin := sample_row "second" (Some 1%Z) 100 None.

(** A short afternoon of the component. *)
Definition sample_events : list Event :=
  [ CycleDone 10 (Fulfilled (Some [row_b])) (Fulfilled (Some [row_a]));
    ClickColumn key_price;
    MoveSlider tf_1h 7;
    CycleDone 20 (Fulfilled (Some [row_c])) (Rejected NetworkError);
    ClickSound ].

(** ** The derivation over the arithmetic of the host

    The quotient [((nowPrice - ref) / ref) * 100] and the rounding
    [Number(x.toFixed(4))] are computed by the engine in doubles; their
    results (a finite double, an infinity on overflow) are not those of
    exact arithmetic in every case.  Here both are parameters: [number] is
    the type of the results, [percent ref nowPrice] the quotient and
    [fixed4] the rounding, whatever the engine makes them.  The choice of
    the reference price and the tests on it, which compare the prices of
    the payload, are those of the code.  [change_from], [rounded],
    [change15m] and [change4h] above are the instance of these definitions
    with exact arithmetic. *)

Section HostArithmetic.
Variable number : Type.
Variable percent : Q -> Q -> number.
Variable fixed4 : number -> number.

(** [ref > 0 ? ((nowPrice - ref) / ref) * 100 : null] *)
Definition change_from_by (ref nowPrice : Q) : option number :=
  if JS.gtb ref 0 then Some (percent ref nowPrice) else None.

(** [change !== null ? Number(change.toFixed(4)) : null] *)
Definition rounded_by (change : option number) : option number :=
  match change with
  | Some c => Some (fixed4 c)
  | None => None
  end.

Definition change15m_by (prices : list Q) (nowPrice : Q) : option number :=
  rounded_by (change_from_by (price15mAgo prices nowPrice) nowPrice).

Definition change4h_by (prices : list Q) (nowPrice : Q) : option number :=
  rounded_by (change_from_by (price4hAgo prices nowPrice) nowPrice).

End HostArithmetic.


(** The mute flag of the specification: on when the sound is off. *)
Definition mute_flag (s : State) : bool := negb (soundEnabled s).

(** The component with the sound on, holding a snapshot in which one asset
    moved 7 percent in the hour. *)
Definition state_loud : State :=
  {| coins := [coin_a; coin_c; coin_b]; loading := false; error := "";
     lastUpdate := Some 1%Z; soundEnabled := true; sortKey := key_rank;
     sortOrder := desc; userThresholds := defaultThresholds |}.

(** ** The fetch cycle on bodies that are not arrays of rows

    [Response] above takes the body of a fulfilled request to be an array
    of rows or something that cannot be spread.  A body can also be a
    string: axios hands over the text of an answer it could not parse.
    The spread takes a string apart into its characters, and neither the
    rank comparison nor the derivation throws on a character.  This module
    is [fetchData] on such bodies as well. *)

Module Untyped.

Inductive Body : Type :=
| Rows (rows : list RawCoin)
| Text (s : string)
| NotIterable.

Inductive Response : Type :=
| Fulfilled (data : Body)
| Rejected (reason : Rejection).

(** An element of the spread array: a row, or a character of a text. *)
Inductive Item : Type :=
| Row (r : RawCoin)
| Char (c : Ascii.ascii).

(** An element of the snapshot: a derived row, or, for a character [c],
    the object [{ 0: c, price_change_15m: null, price_change_4h: null }]
    (a string has no [sparkline_in_7d] and no [current_price], so that
    both references are [undefined] and [undefined > 0] is false). *)
Inductive Entry : Type :=
| Derived (c : Coin)
| Spread (c : Ascii.ascii).

(** [[...data]]; [None] when the spread throws. *)
Definition spread (data : Body) : option (list Item) :=
  match data with
  | Rows rows => Some (map Row rows)
  | Text s => Some (map Char (list_ascii_of_string s))
  | NotIterable => None
  end.

(** [(a, b) => a.market_cap_rank - b.market_cap_rank]: with a character on
    either side the difference is [NaN], which the sort takes as [+0]. *)
Definition compare_items (a b : Item) : Z :=
  match a, b with
  | Row x, Row y => by_rank x y
  | _, _ => 0%Z
  end.

(** The [.map] callback. *)
Definition derive_item (i : Item) : Entry :=
  match i with
  | Row r => Derived (derive r)
  | Char c => Spread c
  end.

Record State : Type := mkState {
  coins : list Entry;
  loading : bool;
  error : string;
  lastUpdate : option Z
}.

(** The [catch] block, run in the state the [try] block left. *)
Definition catch (s : State) : State :=
  {| coins := coins s; loading := false;
     error := "Failed to load data — retrying...";
     lastUpdate := lastUpdate s |}.

(** [fetchData] *)
Definition fetchData (now : Z) (r1 r2 : Response) (s : State) : State :=
  let s0 := {| coins := coins s; loading := true; error := "";
               lastUpdate := lastUpdate s |} in
  match r1, r2 with
  | Fulfilled data1, Fulfilled data2 =>
      match spread data1, spread data2 with
      | Some items1, Some items2 =>
          let allCoins :=
            map derive_item (Array.sort compare_items (items1 ++ items2)) in
          {| coins := allCoins; loading := false; error := "";
             lastUpdate := Some now |}
      | _, _ => catch s0
      end
  | _, _ => catch s0
  end.


End Untyped.

(** A response of the typed model, as a response of the untyped one. *)
Definition untyped_response (r : Response) : Untyped.Response :=
  match r with
  | Fulfilled (Some rows) => Untyped.Fulfilled (Untyped.Rows rows)
  | Fulfilled None => Untyped.Fulfilled Untyped.NotIterable
  | Rejected e => Untyped.Rejected e
  end.

(** A state of the typed model, as a state of the untyped one. *)
Definition untyped_state (s : State) : Untyped.State :=
  {| Untyped.coins := map Untyped.Derived (coins s);
     Untyped.loading := loading s;
     Untyped.error := error s;
     Untyped.lastUpdate := lastUpdate s |}.


(** ** Arithmetic of the primitives *)

Lemma ltb_lt (a b : Q) : JS.ltb a b = true <-> a < b.
Proof.
  unfold JS.ltb. rewrite negb_true_iff. split.
  - intro H. apply Qnot_le_lt. intro Hle.
    apply Qle_bool_iff in Hle. congruence.
  - intro H. destruct (Qle_bool b a) eqn:E; [|reflexivity].
    apply Qle_bool_iff in E. exfalso. exact (Qlt_not_le _ _ H E).
Qed.

Lemma ltb_ge (a b : Q) : JS.ltb a b = false <-> b <= a.
Proof.
  unfold JS.ltb. rewrite negb_false_iff. apply Qle_bool_iff.
Qed.

Lemma geb_le (a b : Q) : JS.geb a b = true <-> b <= a.
Proof. unfold JS.geb. apply Qle_bool_iff. Qed.

Lemma geb_lt (a b : Q) : JS.geb a b = false <-> a < b.
Proof.
  unfold JS.geb. split.
  - intro H. apply Qnot_le_lt. intro Hle.
    apply Qle_bool_iff in Hle. congruence.
  - intro H. destruct (Qle_bool b a) eqn:E; [|reflexivity].
    apply Qle_bool_iff in E. exfalso. exact (Qlt_not_le _ _ H E).
Qed.

Lemma truthy_nonzero (a : Q) : JS.truthy a = true <-> ~ a == 0.
Proof.
  unfold JS.truthy. rewrite negb_true_iff. split.
  - intros H E. apply Qeq_bool_iff in E. congruence.
  - intro H. destruct (Qeq_bool a 0) eqn:E; [|reflexivity].
    apply Qeq_bool_iff in E. contradiction.
Qed.

Lemma num_le_refl (a : JS.jsnum) : num_le a a.
Proof.
  destruct a as [|q]; unfold num_le; simpl; [reflexivity|].
  apply ltb_ge, Qle_refl.
Qed.

Lemma num_le_trans (a b c : JS.jsnum) : num_le a b -> num_le b c -> num_le a c.
Proof.
  unfold num_le.
  destruct a as [|x], b as [|y], c as [|z]; simpl; try congruence.
  rewrite !ltb_ge. intros H1 H2. exact (Qle_trans _ _ _ H1 H2).
Qed.

Lemma num_lt_le (a b : JS.jsnum) : JS.num_ltb a b = true -> num_le a b.
Proof.
  unfold num_le. destruct a as [|x], b as [|y]; simpl; try congruence.
  rewrite ltb_lt, ltb_ge. apply Qlt_le_weak.
Qed.

(** ** The sort routine *)

Section SortPermutation.
Context {A : Type}.
Variable comparefn : A -> A -> Z.

Lemma place_perm (pivot : A) (placed : list A) :
  Permutation (Array.place comparefn pivot placed) (pivot :: placed).
Proof.
  induction placed as [|e rest IH]; simpl.
  - apply Permutation_refl.
  - destruct (comparefn pivot e <? 0)%Z.
    + eapply Permutation_trans; [apply perm_skip, IH | apply perm_swap].
    + apply Permutation_refl.
Qed.

Lemma fold_place_perm (arr placed : list A) :
  Permutation
    (fold_left (fun acc pivot => Array.place comparefn pivot acc) arr placed)
    (arr ++ placed).
Proof.
  revert placed. induction arr as [|x arr IH]; intro placed; simpl.
  - apply Permutation_refl.
  - eapply Permutation_trans; [apply IH|].
    eapply Permutation_trans;
      [apply Permutation_app_head, place_perm|].
    apply Permutation_sym, Permutation_middle.
Qed.

Lemma sort_perm (arr : list A) : Permutation (Array.sort comparefn arr) arr.
Proof.
  unfold Array.sort.
  eapply Permutation_trans; [apply Permutation_sym, Permutation_rev|].
  eapply Permutation_trans; [apply fold_place_perm|].
  rewrite app_nil_r. apply Permutation_refl.
Qed.

End SortPermutation.

Section SortOrdered.
Context {A : Type}.
Variable comparefn : A -> A -> Z.
Variable R : A -> A -> Prop.
Hypothesis R_trans : forall x y z, R x y -> R y z -> R x z.
Hypothesis negative_R : forall x y, (comparefn x y < 0)%Z -> R x y.
Hypothesis other_R : forall x y, (0 <= comparefn x y)%Z -> R y x.

Lemma place_sorted (pivot : A) (placed : list A) :
  StronglySorted (converse R) placed ->
  StronglySorted (converse R) (Array.place comparefn pivot placed).
Proof.
  induction placed as [|e rest IH]; simpl; intro Hs.
  - constructor; constructor.
  - inversion Hs as [|? ? Hrest Hall]; subst.
    destruct (Z.ltb_spec (comparefn pivot e) 0) as [Hneg|Hpos].
    + constructor; [apply IH, Hrest|].
      eapply Permutation_Forall;
        [apply Permutation_sym, place_perm|].
      constructor; [apply negative_R, Hneg | exact Hall].
    + constructor; [exact Hs|].
      constructor; [apply other_R, Hpos|].
      eapply Forall_impl; [|exact Hall].
      intros b Hb. unfold converse in *.
      exact (R_trans _ _ _ Hb (other_R _ _ Hpos)).
Qed.

Lemma fold_place_sorted (arr placed : list A) :
  StronglySorted (converse R) placed ->
  StronglySorted (converse R)
    (fold_left (fun acc pivot => Array.place comparefn pivot acc) arr placed).
Proof.
  revert placed. induction arr as [|x arr IH]; intros placed Hs; simpl.
  - exact Hs.
  - apply IH, place_sorted, Hs.
Qed.

Lemma sorted_snoc (l : list A) (a : A) :
  StronglySorted R l -> Forall (fun b => R b a) l ->
  StronglySorted R (l ++ [a]).
Proof.
  induction l as [|b l IH]; simpl; intros Hs Hall.
  - constructor; constructor.
  - inversion Hs; subst. inversion Hall; subst.
    constructor; [apply IH; assumption|].
    apply Forall_app; split; [assumption|].
    constructor; [assumption | constructor].
Qed.

Lemma sorted_rev (l : list A) : StronglySorted (converse R) l -> StronglySorted R (rev l).
Proof.
  induction 1 as [|a l Hs IH Hall]; simpl.
  - constructor.
  - apply sorted_snoc; [exact IH|].
    apply Forall_rev. exact Hall.
Qed.

Lemma sort_sorted (arr : list A) : StronglySorted R (Array.sort comparefn arr).
Proof.
  unfold Array.sort. apply sorted_rev, fold_place_sorted. constructor.
Qed.

End SortOrdered.

(** Two ordered arrangements of the same elements coincide when no two
    distinct elements are equivalent for the order. *)
Section SortedUnique.
Context {A : Type}.
Variable R : A -> A -> Prop.

Lemma sorted_unique (l1 l2 : list A) :
  (forall x y, In x l1 -> In y l1 -> R x y -> R y x -> x = y) ->
  StronglySorted R l1 -> StronglySorted R l2 -> Permutation l1 l2 ->
  l1 = l2.
Proof.
  revert l2. induction l1 as [|a l1 IH]; intros l2 Hanti H1 H2 Hp.
  - apply Permutation_nil in Hp. now subst.
  - destruct l2 as [|b l2].
    + apply Permutation_sym, Permutation_nil in Hp. discriminate.
    + inversion H1 as [|? ? Hs1 Ha]; subst.
      inversion H2 as [|? ? Hs2 Hb]; subst.
      assert (Hab : a = b).
      { assert (Hina : In a (b :: l2))
          by (eapply Permutation_in; [exact Hp | now left]).
        assert (Hinb : In b (a :: l1))
          by (eapply Permutation_in;
              [apply Permutation_sym; exact Hp | now left]).
        destruct Hina as [E|Hina]; [now subst|].
        destruct Hinb as [E|Hinb]; [now subst|].
        rewrite Forall_forall in Ha, Hb.
        apply Hanti; [now left | now right | apply Ha, Hinb | apply Hb, Hina]. }
      subst b. f_equal.
      apply IH; try assumption.
      * intros x y Hx Hy. apply Hanti; now right.
      * eapply Permutation_cons_inv; exact Hp.
Qed.

End SortedUnique.

Lemma NoDup_map_injective {A B : Type} (f : A -> B) (l : list A) (x y : A) :
  NoDup (map f l) -> In x l -> In y l -> f x = f y -> x = y.
Proof.
  induction l as [|a l IH]; simpl; intros Hnd Hx Hy E; [contradiction|].
  inversion Hnd as [|? ? Hnotin Hnd']; subst.
  destruct Hx as [->|Hx], Hy as [->|Hy]; auto.
  - exfalso. apply Hnotin. rewrite E. now apply in_map.
  - exfalso. apply Hnotin. rewrite <- E. now apply in_map.
Qed.

(** *** The rank comparison orders by ascending rank *)

Lemma rank_le_trans (x y z : RawCoin) : rank_le x y -> rank_le y z -> rank_le x z.
Proof. unfold rank_le. lia. Qed.

Lemma by_rank_negative (x y : RawCoin) : (by_rank x y < 0)%Z -> rank_le x y.
Proof. unfold by_rank, rank_le, rank_number. lia. Qed.

Lemma by_rank_other (x y : RawCoin) : (0 <= by_rank x y)%Z -> rank_le y x.
Proof. unfold by_rank, rank_le, rank_number. lia. Qed.

Lemma sort_by_rank_sorted (rows : list RawCoin) :
  StronglySorted rank_le (Array.sort by_rank rows).
Proof.
  apply sort_sorted.
  - exact rank_le_trans.
  - exact by_rank_negative.
  - exact by_rank_other.
Qed.

Lemma sorted_map {A B : Type} (f : A -> B) (R : B -> B -> Prop) (l : list A) :
  StronglySorted (fun a b => R (f a) (f b)) l -> StronglySorted R (map f l).
Proof.
  induction 1 as [|a l Hs IH Hall]; simpl; constructor; auto.
  apply Forall_map. exact Hall.
Qed.

Lemma map_row_derive (rows : list RawCoin) : map row (map derive rows) = rows.
Proof.
  rewrite map_map. simpl. apply map_id.
Qed.

(** *** The table comparison orders by the active key *)

Lemma in_order_trans (k : SortKey) (o : SortOrder) (x y z : Coin) :
  in_order k o x y -> in_order k o y z -> in_order k o x z.
Proof.
  destruct o; unfold in_order; intros H1 H2.
  - exact (num_le_trans _ _ _ H1 H2).
  - exact (num_le_trans _ _ _ H2 H1).
Qed.

Lemma compare_coins_negative (k : SortKey) (o : SortOrder) (x y : Coin) :
  (compare_coins k o x y < 0)%Z -> in_order k o x y.
Proof.
  unfold compare_coins, in_order, num_le, JS.num_gtb. destruct o.
  - destruct (JS.num_ltb (sort_value k y) (sort_value k x)); [lia | reflexivity].
  - destruct (JS.num_ltb (sort_value k x) (sort_value k y)); [lia | reflexivity].
Qed.

Lemma compare_coins_other (k : SortKey) (o : SortOrder) (x y : Coin) :
  (0 <= compare_coins k o x y)%Z -> in_order k o y x.
Proof.
  unfold compare_coins, in_order, JS.num_gtb. destruct o.
  - destruct (JS.num_ltb (sort_value k y) (sort_value k x)) eqn:E; [|lia].
    intros _. apply num_lt_le, E.
  - destruct (JS.num_ltb (sort_value k x) (sort_value k y)) eqn:E; [|lia].
    intros _. apply num_lt_le, E.
Qed.

Lemma sortedCoins_sorted (l : list Coin) (k : SortKey) (o : SortOrder) :
  StronglySorted (in_order k o) (sortedCoins l k o).
Proof.
  apply sort_sorted.
  - exact (in_order_trans k o).
  - exact (compare_coins_negative k o).
  - exact (compare_coins_other k o).
Qed.

Lemma sorted_before {A : Type} (R : A -> A -> Prop) (l : list A) (x y : A) :
  StronglySorted R l -> before l x y -> R x y.
Proof.
  intros Hs (l1 & l2 & l3 & ->).
  induction l1 as [|a l1 IH]; simpl in Hs.
  - inversion Hs as [|? ? _ Hall]; subst.
    rewrite Forall_forall in Hall. apply Hall.
    apply in_or_app. right. now left.
  - inversion Hs; subst. now apply IH.
Qed.

(** ** Momentum derivation *)

Lemma index_short {A : Type} (arr : list A) (k : Z) :
  (JS.length arr < k)%Z -> JS.index arr (JS.length arr - k) = None.
Proof.
  intro H. unfold JS.index.
  destruct (Z.ltb_spec (JS.length arr - k) 0); [reflexivity | lia].
Qed.

Lemma or_num_positive (p y : Q) : 0 < p -> JS.or_num (Some p) y = p.
Proof.
  intro H. simpl.
  assert (Ht : JS.truthy p = true).
  { apply truthy_nonzero. intro E. rewrite E in H. exact (Qlt_irrefl _ H). }
  now rewrite Ht.
Qed.

Lemma or_else_positive (p : Q) (y : option Q) :
  0 < p -> JS.or_else (Some p) y = Some p.
Proof.
  intro H. simpl.
  assert (Ht : JS.truthy p = true).
  { apply truthy_nonzero. intro E. rewrite E in H. exact (Qlt_irrefl _ H). }
  now rewrite Ht.
Qed.

Lemma change_from_positive (ref nowPrice : Q) :
  0 < ref ->
  rounded (change_from ref nowPrice)
  = Some (JS.toFixed4 (((nowPrice - ref) / ref) * 100)).
Proof.
  intro H. unfold change_from, JS.gtb.
  apply ltb_lt in H. now rewrite H.
Qed.

Lemma change_from_unavailable (ref nowPrice : Q) :
  rounded (change_from ref nowPrice) = None <-> ref <= 0.
Proof.
  unfold change_from, JS.gtb. split.
  - destruct (JS.ltb 0 ref) eqn:E; [discriminate|].
    intros _. now apply ltb_ge.
  - intro H. apply ltb_ge in H. now rewrite H.
Qed.

Lemma toFixed4_zero (x : Q) : x == 0 -> JS.toFixed4 x == 0.
Proof.
  intro E. unfold JS.toFixed4.
  assert (Hlt : JS.ltb x 0 = false) by (apply ltb_ge; rewrite E; apply Qle_refl).
  rewrite Hlt.
  assert (Hf : Qfloor (Qabs x * 10000 + (1 # 2)) = 0%Z).
  { rewrite E. reflexivity. }
  rewrite Hf. reflexivity.
Qed.

Lemma change_from_self (nowPrice : Q) :
  0 < nowPrice ->
  exists q, rounded (change_from nowPrice nowPrice) = Some q /\ q == 0.
Proof.
  intro H. rewrite change_from_positive by exact H.
  eexists. split; [reflexivity|].
  apply toFixed4_zero.
  unfold Qdiv. ring.
Qed.










Section HostArithmeticFacts.
Variable number : Type.
Variable percent : Q -> Q -> number.
Variable fixed4 : number -> number.



End HostArithmeticFacts.

(** With exact arithmetic for the host the derivation is the one of
    [derive]. *)
Lemma exact_instance (prices : list Q) (nowPrice : Q) :
  change15m prices nowPrice
  = change15m_by Q exact_change JS.toFixed4 prices nowPrice
  /\ change4h prices nowPrice
     = change4h_by Q exact_change JS.toFixed4 prices nowPrice.
Proof. split; reflexivity. Qed.



(** ** Sorting the table *)

Lemma sort_value_horizon (tf : Timeframe) (c : Coin) :
  sort_value (key_of tf) c = JS.or_neg_inf (change_value tf c).
Proof. destruct tf; reflexivity. Qed.

Lemma compare_coins_tie (k : SortKey) (o : SortOrder) (a b : Coin) :
  tie (sort_value k a) (sort_value k b) ->
  compare_coins k o a b = (-1)%Z /\ compare_coins k o b a = (-1)%Z.
Proof.
  intros [H1 H2]. unfold compare_coins, JS.num_gtb.
  destruct o; rewrite H1, H2; split; reflexivity.
Qed.

Lemma in_order_both_tie (k : SortKey) (o : SortOrder) (a b : Coin) :
  in_order k o a b -> in_order k o b a ->
  tie (sort_value k a) (sort_value k b).
Proof.
  destruct o; unfold in_order, num_le, tie; intros H1 H2; split; assumption.
Qed.

(** C2, as the specification states it, fails: two assets of equal price
    with ranks 1 and 2 come out of the sort by price with rank 2 first; the
    comparison answers -1 for them in both argument orders and never looks
    at the rank.  Sorting the sorted sequence again swaps them back. *)
Lemma ties_not_broken_by_rank :
  map (fun c : Coin => market_cap_rank c) snapshot_ab = [Some 1%Z; Some 2%Z]
  /\ tie (sort_value key_price coin_a) (sort_value key_price coin_b)
  /\ sortedCoins snapshot_ab key_price desc = [coin_b; coin_a]
  /\ sortedCoins snapshot_ab key_price asc = [coin_b; coin_a]
  /\ compare_coins key_price desc coin_a coin_b = (-1)%Z
  /\ compare_coins key_price desc coin_b coin_a = (-1)%Z
  /\ sortedCoins (sortedCoins snapshot_ab key_price desc) key_price desc
     <> sortedCoins snapshot_ab key_price desc
  /\ ~ ties_by_ascending_rank key_price
        (sortedCoins snapshot_ab key_price desc).
Proof.
  repeat split; try (vm_compute; reflexivity).
  - vm_compute. discriminate.
  - intro H.
    assert (Hb : before (sortedCoins snapshot_ab key_price desc) coin_b coin_a)
      by (exists [], [], []; reflexivity).
    specialize (H coin_b coin_a Hb (conj eq_refl eq_refl)).
    vm_compute in H. apply H. reflexivity.
Qed.

(** C2 (amended).  The table depends on the snapshot and on the (key,
    order) selection only, so that sorting the same snapshot again with
    the same selection yields the same sequence.  It is a permutation of
    the snapshot, ordered by the values of the active key in the chosen
    direction (a missing value counting as minus infinity).  The
    comparison has no tie-break on rank: for two assets whose values under
    the active key are equal it answers -1 in both argument orders, so that
    their relative order is what the sort routine makes of it.  When no two distinct
    assets of the snapshot have equal values under the key, the sorted
    sequence is the same for every arrangement of the snapshot. *)
Theorem sortedCoins_ordered (snapshot : list Coin) (k : SortKey)
  (o : SortOrder) :
  (forall s1 s2,
     coins s1 = snapshot -> coins s2 = snapshot ->
     sortKey s1 = k -> sortKey s2 = k ->
     sortOrder s1 = o -> sortOrder s2 = o ->
     table s1 = table s2)
  /\ Permutation (sortedCoins snapshot k o) snapshot
  /\ StronglySorted (in_order k o) (sortedCoins snapshot k o)
  /\ (forall a b, tie (sort_value k a) (sort_value k b) ->
        compare_coins k o a b = (-1)%Z /\ compare_coins k o b a = (-1)%Z)
  /\ (forall snapshot',
        Permutation snapshot snapshot' ->
        (forall a b, In a snapshot -> In b snapshot ->
           tie (sort_value k a) (sort_value k b) -> a = b) ->
        sortedCoins snapshot' k o = sortedCoins snapshot k o).
Proof.
  split.
  { intros s1 s2 Hc1 Hc2 Hk1 Hk2 Ho1 Ho2. unfold table. congruence. }
  split; [apply sort_perm|].
  split; [apply sortedCoins_sorted|].
  split; [intros a b; apply compare_coins_tie|].
  intros snapshot' Hp Hdistinct.
  apply (sorted_unique (in_order k o)).
  - intros x y Hx Hy Hxy Hyx.
    assert (Hin : forall z, In z (sortedCoins snapshot' k o) -> In z snapshot).
    { intros z Hz. eapply Permutation_in; [apply Permutation_sym, Hp|].
      eapply Permutation_in; [apply sort_perm | exact Hz]. }
    apply Hdistinct; [apply Hin, Hx | apply Hin, Hy|].
    exact (in_order_both_tie k o x y Hxy Hyx).
  - apply sortedCoins_sorted.
  - apply sortedCoins_sorted.
  - eapply Permutation_trans; [apply sort_perm|].
    eapply Permutation_trans; [apply Permutation_sym, Hp|].
    apply Permutation_sym, sort_perm.
Qed.

Lemma sortedCoins_ordered_witness :
  table (cycle state_ab 2 (Rejected NetworkError) (Rejected NetworkError))
  = table state_ab
  /\ sortedCoins [coin_c; coin_a] key_price desc
     = sortedCoins [coin_a; coin_c] key_price desc
  /\ compare_coins key_price desc coin_a coin_b = (-1)%Z.
Proof.
  destruct (sortedCoins_ordered snapshot_ab key_rank desc) as (Hsame & _).
  destruct (sortedCoins_ordered [coin_a; coin_c] key_price desc)
    as (_ & _ & _ & Htie & Hdet).
  split; [apply Hsame; reflexivity|].
  split.
  - apply Hdet.
    + apply perm_swap.
    + intros a b [<-|[<-|[]]] [<-|[<-|[]]] [H1 H2];
        try reflexivity; vm_compute in H1, H2; discriminate.
  - apply (Htie coin_a coin_b). split; reflexivity.
Defined.

(** C7.  On a horizon column a missing value is compared as minus
    infinity, whatever the direction.  In the table sorted descending no
    asset without a value stands before an asset with one; in the table
    sorted ascending no asset without a value stands after an asset with
    one. *)
Theorem unavailable_sorts_as_lowest (snapshot : list Coin) (tf : Timeframe)
  (x y : Coin) :
  (change_value tf x = None -> sort_value (key_of tf) x = JS.NegInf)
  /\ (forall v, change_value tf x = None -> change_value tf y = Some v ->
        compare_coins (key_of tf) desc x y = 1%Z
        /\ compare_coins (key_of tf) desc y x = (-1)%Z
        /\ compare_coins (key_of tf) asc x y = (-1)%Z
        /\ compare_coins (key_of tf) asc y x = 1%Z)
  /\ (before (sortedCoins snapshot (key_of tf) desc) x y ->
        change_value tf x = None -> change_value tf y = None)
  /\ (before (sortedCoins snapshot (key_of tf) asc) x y ->
        change_value tf y = None -> change_value tf x = None).
Proof.
  split; [intro H; now rewrite sort_value_horizon, H|].
  split.
  { intros v Hx Hy. unfold compare_coins, JS.num_gtb.
    rewrite !sort_value_horizon, Hx, Hy. simpl. repeat split; reflexivity. }
  split.
  - intros Hb Hx.
    pose proof (sorted_before _ _ _ _ (sortedCoins_sorted snapshot (key_of tf) desc) Hb)
      as Hord.
    unfold in_order, num_le in Hord.
    rewrite !sort_value_horizon, Hx in Hord.
    destruct (change_value tf y); [discriminate | reflexivity].
  - intros Hb Hy.
    pose proof (sorted_before _ _ _ _ (sortedCoins_sorted snapshot (key_of tf) asc) Hb)
      as Hord.
    unfold in_order, num_le in Hord.
    rewrite !sort_value_horizon, Hy in Hord.
    destruct (change_value tf x); [discriminate | reflexivity].
Qed.

Lemma unavailable_sorts_as_lowest_witness :
  sort_value (key_of tf_1h) coin_a = JS.NegInf
  /\ compare_coins (key_of tf_1h) desc coin_a coin_c = 1%Z
  /\ compare_coins (key_of tf_1h) asc coin_a coin_c = (-1)%Z
  /\ change_value tf_1h coin_a = None
  /\ change_value tf_1h coin_b = None.
Proof.
  destruct (unavailable_sorts_as_lowest [coin_c; coin_a; coin_b] tf_1h coin_a coin_c)
    as (Hinf & Hcmp & _).
  destruct (unavailable_sorts_as_lowest [coin_c; coin_a; coin_b] tf_1h coin_b coin_a)
    as (_ & _ & Hdesc & _).
  destruct (unavailable_sorts_as_lowest [coin_a; coin_b; coin_c] tf_1h coin_b coin_a)
    as (_ & _ & _ & Hasc).
  split; [apply Hinf; reflexivity|].
  destruct (Hcmp 7 eq_refl eq_refl) as (H1 & _ & H3 & _).
  split; [exact H1|]. split; [exact H3|].
  split.
  - apply Hdesc; [|reflexivity].
    exists [coin_c], [], []. vm_compute. reflexivity.
  - apply Hasc; [|reflexivity].
    exists [], [], [coin_c]. vm_compute. reflexivity.
Defined.

(** ** The merge step *)

Lemma allCoins_rows (data1 data2 : list RawCoin) :
  map row (allCoins data1 data2) = Array.sort by_rank (data1 ++ data2).
Proof. unfold allCoins. apply map_row_derive. Qed.

Lemma sorted_of_map {A B : Type} (f : A -> B) (R : B -> B -> Prop) (l : list A) :
  StronglySorted R (map f l) -> StronglySorted (fun a b => R (f a) (f b)) l.
Proof.
  induction l as [|a l IH]; simpl; intro Hs; [constructor|].
  inversion Hs as [|? ? Hs' Hall]; subst.
  constructor; [apply IH, Hs'|].
  rewrite Forall_forall in *. intros x Hx. apply Hall. now apply in_map.
Qed.

(** C3, as the specification states it, fails: two rows with the same id
    are both kept, and a row without a rank is kept as well (it is placed
    as if its rank were 0), where the specification keeps one row and none
    respectively. *)
Lemma merge_keeps_every_row :
  map (fun c : Coin => id c) (allCoins [row_dup1] [row_dup2]) = ["btc"; "btc"]%string
  /\ map id (Spec.merge [row_dup1] [row_dup2]) = ["btc"]%string
  /\ map (fun c : Coin => market_cap_rank c) (allCoins [row_dup1] [row_rankless])
     = [None; Some 1%Z]
  /\ map market_cap_rank (Spec.merge [row_dup1] [row_rankless]) = [Some 1%Z].
Proof. repeat split; vm_compute; reflexivity. Qed.

(** C3 (amended).  The merge step concatenates the two pages and orders
    the rows by ascending rank, a missing rank counting as 0, and derives
    the two changes of each row.  It keeps every row of both pages: rows
    with an id already seen and rows without a rank are not removed. *)
Theorem merge_sorts_all_rows (data1 data2 : list RawCoin) :
  Permutation (allCoins data1 data2) (map derive (data1 ++ data2))
  /\ StronglySorted (fun a b : Coin => rank_le a b) (allCoins data1 data2)
  /\ List.length (allCoins data1 data2)
     = (List.length data1 + List.length data2)%nat.
Proof.
  split; [|split].
  - unfold allCoins. apply Permutation_map, sort_perm.
  - apply sorted_of_map. rewrite allCoins_rows. apply sort_by_rank_sorted.
  - unfold allCoins. rewrite length_map.
    rewrite (Permutation_length (sort_perm by_rank (data1 ++ data2))).
    apply length_app.
Qed.

Lemma sort_by_rank_unique (rows rows' : list RawCoin) :
  NoDup (map rank_number rows) -> Permutation rows rows' ->
  Array.sort by_rank rows = Array.sort by_rank rows'.
Proof.
  intros Hnd Hp. apply (sorted_unique rank_le).
  - intros x y Hx Hy Hxy Hyx.
    apply (NoDup_map_injective rank_number rows); try assumption.
    + eapply Permutation_in; [apply sort_perm | exact Hx].
    + eapply Permutation_in; [apply sort_perm | exact Hy].
    + unfold rank_le in *. lia.
  - apply sort_by_rank_sorted.
  - apply sort_by_rank_sorted.
  - eapply Permutation_trans; [apply sort_perm|].
    eapply Permutation_trans; [exact Hp|].
    apply Permutation_sym, sort_perm.
Qed.

(** C8.  For two pages whose ranks (the numbers the rank comparison sees)
    are unique across both, merging them in either order gives the same
    snapshot. *)
Theorem merge_order_irrelevant (A B : list RawCoin) :
  NoDup (map rank_number (A ++ B)) -> allCoins A B = allCoins B A.
Proof.
  intro Hnd. unfold allCoins. f_equal.
  apply sort_by_rank_unique; [exact Hnd|].
  apply Permutation_app_comm.
Qed.

Lemma merge_order_irrelevant_witness :
  allCoins [row_b; row_c] [row_a] = allCoins [row_a] [row_b; row_c].
Proof.
  apply merge_order_irrelevant.
  vm_compute. repeat constructor; simpl; intuition discriminate.
Defined.

(** ** The fetch cycle *)

Lemma cycle_success (s : State) (now : Z) (data1 data2 : list RawCoin) :
  cycle s now (Fulfilled (Some data1)) (Fulfilled (Some data2))
  = {| coins := allCoins data1 data2; loading := false; error := "";
       lastUpdate := Some now; soundEnabled := soundEnabled s;
       sortKey := sortKey s; sortOrder := sortOrder s;
       userThresholds := userThresholds s |}.
Proof. reflexivity. Qed.

Lemma cycle_failure (s : State) (now : Z) (r1 r2 : Response) :
  failed r1 = true \/ failed r2 = true ->
  cycle s now r1 r2
  = {| coins := coins s; loading := false;
       error := "Failed to load data — retrying...";
       lastUpdate := lastUpdate s; soundEnabled := soundEnabled s;
       sortKey := sortKey s; sortOrder := sortOrder s;
       userThresholds := userThresholds s |}.
Proof.
  intro H.
  destruct r1 as [[d1|]|e1], r2 as [[d2|]|e2]; simpl in H;
    try reflexivity; destruct H; discriminate.
Qed.

(** On bodies that are arrays of rows or cannot be spread: when one of the
    two requests of a cycle is rejected or its body cannot be spread, the
    snapshot held before, and the time of its capture, are unchanged and
    the error message is not empty.  A later cycle in which both requests
    deliver rows empties the error message and puts the merge of its two
    pages in place of the snapshot, whatever the snapshot was. *)
Theorem failed_cycle_keeps_snapshot (s : State) (now now' : Z)
  (r1 r2 : Response) (data1 data2 : list RawCoin) :
  failed r1 = true \/ failed r2 = true ->
  let s1 := cycle s now r1 r2 in
  let s2 := cycle s1 now' (Fulfilled (Some data1)) (Fulfilled (Some data2)) in
  coins s1 = coins s
  /\ lastUpdate s1 = lastUpdate s
  /\ error s1 <> ""%string
  /\ error s2 = ""%string
  /\ coins s2 = allCoins data1 data2
  /\ lastUpdate s2 = Some now'.
Proof.
  intros H s1 s2. subst s2 s1.
  rewrite cycle_success, (cycle_failure s now r1 r2 H). simpl.
  repeat split. discriminate.
Qed.

Lemma failed_cycle_keeps_snapshot_witness :
  let s1 := cycle state_ab 2 (Fulfilled (Some [row_c])) (Rejected TimeoutExceeded) in
  let s2 := cycle s1 3 (Fulfilled (Some [row_c])) (Fulfilled (Some [row_a])) in
  coins s1 = snapshot_ab
  /\ lastUpdate s1 = Some 1%Z
  /\ error s1 <> ""%string
  /\ error s2 = ""%string
  /\ coins s2 = allCoins [row_c] [row_a]
  /\ lastUpdate s2 = Some 3%Z.
Proof.
  apply (failed_cycle_keeps_snapshot state_ab 2 3
           (Fulfilled (Some [row_c])) (Rejected TimeoutExceeded)
           [row_c] [row_a]).
  right. reflexivity.
Defined.

(** ** Ranks of a snapshot *)

Lemma ranks_up_to_sorted (start N : nat) :
  StronglySorted option_rank_le
    (map (fun i => Some (Z.of_nat i)) (seq start N)).
Proof.
  revert start. induction N as [|N IH]; intro start; simpl; constructor.
  - apply IH.
  - rewrite Forall_forall. intros x Hx.
    apply in_map_iff in Hx. destruct Hx as (i & <- & Hi).
    apply in_seq in Hi. unfold option_rank_le. simpl. lia.
Qed.

Lemma ranks_of_allCoins (data1 data2 : list RawCoin) :
  map (fun c : Coin => market_cap_rank c) (allCoins data1 data2)
  = map market_cap_rank (Array.sort by_rank (data1 ++ data2)).
Proof. rewrite <- allCoins_rows, map_map. reflexivity. Qed.

(** C9, as the specification states it, fails: the snapshot carries the
    ranks the provider sent.  Two pages with ranks 1 and 3 give a snapshot
    with ranks 1 and 3, which is [1..N] for no [N]. *)
Lemma snapshot_ranks_not_contiguous :
  map (fun c : Coin => market_cap_rank c) snapshot_gap = [Some 1%Z; Some 3%Z]
  /\ forall N, ~ Spec.ranks_1_to N snapshot_gap.
Proof.
  split; [vm_compute; reflexivity|].
  intros N H. unfold Spec.ranks_1_to in H.
  assert (HN : N = 2%nat).
  { apply (f_equal (@List.length _)) in H.
    rewrite !length_map, length_seq in H. vm_compute in H. congruence. }
  subst N. vm_compute in H. discriminate.
Qed.

(** C9 (amended).  The snapshot of a successful cycle carries the ranks
    that the two pages delivered, in ascending order; the cycle neither
    checks nor repairs them.  Its ranks are [1..N] exactly when the ranks
    of the rows of the two pages are the numbers [1..N] in some order. *)
Theorem snapshot_ranks (s : State) (now : Z) (data1 data2 : list RawCoin)
  (N : nat) :
  Permutation (map market_cap_rank (data1 ++ data2)) (ranks_up_to N)
  <-> Spec.ranks_1_to N
        (coins (cycle s now (Fulfilled (Some data1)) (Fulfilled (Some data2)))).
Proof.
  rewrite cycle_success. simpl coins. unfold Spec.ranks_1_to.
  rewrite ranks_of_allCoins. fold (ranks_up_to N).
  pose proof (sort_perm by_rank (data1 ++ data2)) as Hperm.
  split.
  - intro Hp.
    assert (Hp' : Permutation
                    (map market_cap_rank (Array.sort by_rank (data1 ++ data2)))
                    (ranks_up_to N)).
    { eapply Permutation_trans; [apply Permutation_map, Hperm | exact Hp]. }
    apply (sorted_unique option_rank_le); [| | |exact Hp'].
    + intros x y Hx Hy Hxy Hyx.
      apply (Permutation_in _ Hp') in Hx. apply (Permutation_in _ Hp') in Hy.
      unfold ranks_up_to in Hx, Hy.
      apply in_map_iff in Hx. destruct Hx as (i & <- & _).
      apply in_map_iff in Hy. destruct Hy as (j & <- & _).
      unfold option_rank_le in *. simpl in *. f_equal. lia.
    + apply sorted_map. apply sort_by_rank_sorted.
    + apply ranks_up_to_sorted.
  - intro H. rewrite <- H.
    apply Permutation_map, Permutation_sym, Hperm.
Qed.

Lemma snapshot_ranks_witness :
  Spec.ranks_1_to 3
    (coins (cycle initialState 5 (Fulfilled (Some [row_b; row_c]))
                                 (Fulfilled (Some [row_a])))).
Proof.
  apply (snapshot_ranks initialState 5 [row_b; row_c] [row_a] 3).
  change (Permutation [Some 2%Z; Some 3%Z; Some 1%Z]
                      [Some 1%Z; Some 2%Z; Some 3%Z]).
  eapply Permutation_trans; [apply perm_skip, perm_swap | apply perm_swap].
Defined.

(** ** Thresholds *)

Lemma crosses_true (v : option Q) (t : Q) :
  crosses v t = true <-> exists x, v = Some x /\ t <= Qabs x.
Proof.
  destruct v as [x|]; simpl.
  - rewrite geb_le. split.
    + intro H. now exists x.
    + intros (y & E & H). now inversion E; subst.
  - split; [discriminate | intros (y & E & _); discriminate].
Qed.

Lemma flagged_class (th : Thresholds) (tf : Timeframe) (v : Q) :
  flagged (getChangeClass th (Some v) tf) = JS.geb (JS.abs v) (threshold th tf).
Proof.
  unfold getChangeClass.
  destruct (JS.geb (JS.abs v) (threshold th tf)), (JS.gtb v 0); reflexivity.
Qed.

(** C6.  For a present change [v] and a threshold [t] the cell is flagged
    exactly when [|v| >= t]: a value equal to the threshold is flagged,
    and, for a threshold of the configured range ([t >= 1]), a value one
    unit below it is not. *)
Theorem flagged_iff_threshold (th : Thresholds) (tf : Timeframe) (v : Q) :
  (flagged (getChangeClass th (Some v) tf) = true
   <-> threshold th tf <= Qabs v)
  /\ (v == threshold th tf -> flagged (getChangeClass th (Some v) tf) = true)
  /\ (1 <= threshold th tf -> v == threshold th tf - 1 ->
      flagged (getChangeClass th (Some v) tf) = false).
Proof.
  rewrite flagged_class. unfold JS.abs.
  split; [apply geb_le|]. split.
  - intro E. apply geb_le. rewrite <- E. apply Qle_Qabs.
  - intros H1 E. apply geb_lt.
    assert (Hv : 0 <= v) by (rewrite E; lra).
    rewrite (Qabs_pos _ Hv), E. lra.
Qed.

Lemma flagged_iff_threshold_witness :
  flagged (getChangeClass defaultThresholds (Some 15) tf_24h) = true
  /\ flagged (getChangeClass defaultThresholds (Some 14) tf_24h) = false.
Proof.
  destruct (flagged_iff_threshold defaultThresholds tf_24h 15) as (_ & Heq & _).
  destruct (flagged_iff_threshold defaultThresholds tf_24h 14) as (_ & _ & Hbelow).
  split.
  - apply Heq. reflexivity.
  - apply Hbelow; [vm_compute; discriminate | reflexivity].
Defined.

(** C5, as it is written, fails: it has the side effect suppressed when the
    mute flag is off.  With the mute flag off (the sound on) and an asset
    that moved 7 percent in the hour against a threshold of 5, the signal
    is true and the sound is played. *)
Lemma alert_plays_with_mute_off :
  mute_flag state_loud = false
  /\ bigMove (coins state_loud) (userThresholds state_loud) = true
  /\ alertEffect (coins state_loud) (userThresholds state_loud)
       (soundEnabled state_loud) = [PlayAudio]
  /\ alertEffect (coins state_loud) (userThresholds state_loud)
       (soundEnabled state_loud) <> [].
Proof. repeat split; try reflexivity. discriminate. Qed.

(** C5 (amended).  The aggregate signal of a snapshot is true exactly when
    some asset has a present value on one of the horizons 15m, 1h, 4h whose
    absolute value is at least the threshold of that horizon, hence false
    when no asset crosses.  When the mute flag is on, that is when
    [soundEnabled] is [false], no sound is played, yet the signal is
    computed all the same and the cell of a crossing asset is still
    classified as flagged; when the mute flag is off, a true signal plays
    the sound. *)
Theorem alert_signal (s : State) :
  (bigMove (coins s) (userThresholds s) = true
   <-> exists c tf v,
         In c (coins s) /\ fast tf = true /\ change_value tf c = Some v
         /\ threshold (userThresholds s) tf <= Qabs v)
  /\ (soundEnabled s = false ->
      alertEffect (coins s) (userThresholds s) (soundEnabled s) = [])
  /\ (soundEnabled s = true -> bigMove (coins s) (userThresholds s) = true ->
      alertEffect (coins s) (userThresholds s) (soundEnabled s) = [PlayAudio])
  /\ (bigMove (coins s) (userThresholds s) = false ->
      alertEffect (coins s) (userThresholds s) (soundEnabled s) = [])
  /\ (forall c tf v,
        change_value tf c = Some v ->
        threshold (userThresholds s) tf <= Qabs v ->
        flagged (getChangeClass (userThresholds s) (change_value tf c) tf)
        = true).
Proof.
  split; [|split; [|split; [|split]]].
  - unfold bigMove. rewrite existsb_exists. split.
    + intros (c & Hin & H).
      apply orb_true_iff in H. destruct H as [H|H];
        [apply orb_true_iff in H; destruct H as [H|H]|];
        apply crosses_true in H; destruct H as (v & Hv & Hle).
      * now exists c, tf_15m, v.
      * now exists c, tf_1h, v.
      * now exists c, tf_4h, v.
    + intros (c & tf & v & Hin & Hfast & Hv & Hle).
      exists c. split; [exact Hin|].
      assert (Hc : crosses (change_value tf c) (threshold (userThresholds s) tf)
                   = true) by (apply crosses_true; now exists v).
      destruct tf; try discriminate; cbn [change_value] in Hc; rewrite Hc;
        rewrite ?orb_true_r; reflexivity.
  - intro Hoff. unfold alertEffect. rewrite Hoff.
    destruct (bigMove _ _); reflexivity.
  - intros Hon Hbig. unfold alertEffect. rewrite Hbig, Hon. reflexivity.
  - intro Hno. unfold alertEffect. now rewrite Hno.
  - intros c tf v Hv Hle. rewrite Hv, flagged_class. now apply geb_le.
Qed.

Lemma alert_signal_witness :
  bigMove (coins state_muted) (userThresholds state_muted) = true
  /\ alertEffect (coins state_muted) (userThresholds state_muted)
       (soundEnabled state_muted) = []
  /\ flagged (getChangeClass (userThresholds state_muted)
                (change_value tf_1h coin_c) tf_1h) = true
  /\ alertEffect (coins state_ab) (userThresholds state_ab)
       (soundEnabled state_ab) = [].
Proof.
  destruct (alert_signal state_muted) as (Hsig & Hoff & _ & _ & Hcell).
  destruct (alert_signal state_ab) as (_ & _ & _ & Hnone & _).
  split; [|split; [|split]].
  - apply Hsig. exists coin_c, tf_1h, 7.
    split; [right; left; reflexivity|].
    split; [reflexivity|]. split; [reflexivity | vm_compute; discriminate].
  - apply Hoff. reflexivity.
  - apply (Hcell coin_c tf_1h 7); [reflexivity | vm_compute; discriminate].
  - apply Hnone. reflexivity.
Defined.

(** ** A change of exactly zero *)

Lemma class_of_present_not_neutral (th : Thresholds) (tf : Timeframe) (v : Q) :
  getChangeClass th (Some v) tf <> class_neutral.
Proof.
  unfold getChangeClass.
  destruct (JS.geb (JS.abs v) (threshold th tf)), (JS.gtb v 0); discriminate.
Qed.

(** The classifier of the component (lines 366-372) does what C10 says:
    for a threshold of at least 1 a present change of zero is classified
    negative-normal, and the neutral class is returned for [null] only. *)
Theorem zero_is_negative_normal (th : Thresholds) (tf : Timeframe) (v : Q) :
  1 <= threshold th tf -> v == 0 ->
  getChangeClass th (Some v) tf = class_negative_normal
  /\ (forall val, getChangeClass th val tf = class_neutral <-> val = None).
Proof.
  intros Ht Ev. split.
  - unfold getChangeClass.
    assert (Hge : JS.geb (JS.abs v) (threshold th tf) = false).
    { apply geb_lt. unfold JS.abs. rewrite Ev. simpl. lra. }
    assert (Hgt : JS.gtb v 0 = false).
    { unfold JS.gtb. apply ltb_ge. rewrite Ev. apply Qle_refl. }
    now rewrite Hge, Hgt.
  - intros [x|]; split; intro H; try reflexivity; try discriminate.
    exfalso. exact (class_of_present_not_neutral th tf x H).
Qed.

Lemma zero_is_negative_normal_witness :
  getChangeClass defaultThresholds (Some 0) tf_1h = class_negative_normal.
Proof.
  apply (zero_is_negative_normal defaultThresholds tf_1h 0).
  - vm_compute. discriminate.
  - reflexivity.
Defined.

(** C10 against the classifier of the earlier revision (lines 105-113):
    its test [!change] takes a change of zero as it takes [null], so that
    zero is classified neutral for each of its thresholds (5, 15 and 40),
    where the classifier of the component answers negative-normal. *)
Theorem earlier_classifier_zero_is_neutral :
  V1.getChangeClass (Some 0) V1.tf_1h = class_neutral
  /\ V1.getChangeClass (Some 0) V1.tf_24h = class_neutral
  /\ V1.getChangeClass (Some 0) V1.tf_7d = class_neutral
  /\ V1.getChangeClass None V1.tf_1h = class_neutral
  /\ getChangeClass defaultThresholds (Some 0) tf_1h = class_negative_normal.
Proof. repeat split; reflexivity. Qed.

(** * Further properties of the component *)

(** ** Column clicks and the direction of the table *)

Lemma key_name_eqb (a b : SortKey) :
  String.eqb (key_name a) (key_name b) = true <-> a = b.
Proof.
  destruct a, b; split; intro H; try reflexivity; try discriminate;
    vm_compute in H; discriminate.
Qed.

Lemma flip_order_involutive (o : SortOrder) : flip_order (flip_order o) = o.
Proof. destruct o; reflexivity. Qed.

Lemma sorted_weaken {A : Type} (R R' : A -> A -> Prop) (l : list A) :
  (forall a b, R a b -> R' a b) -> StronglySorted R l -> StronglySorted R' l.
Proof.
  intros Himp. induction 1 as [|a l Hs IH Hall]; constructor; auto.
  eapply Forall_impl; [|exact Hall]. intros b. apply Himp.
Qed.

Lemma sorted_rev_converse {A : Type} (R : A -> A -> Prop) (l : list A) :
  StronglySorted R l -> StronglySorted (converse R) (rev l).
Proof.
  intro H. apply (@sorted_rev A (converse R)).
  apply (sorted_weaken R); [|exact H]. intros a b Hab. exact Hab.
Qed.

Lemma in_order_flip (k : SortKey) (o : SortOrder) (a b : Coin) :
  in_order k (flip_order o) a b <-> in_order k o b a.
Proof. destruct o; simpl; tauto. Qed.

(** Without ties an ordered arrangement of the snapshot is the table. *)
Lemma sortedCoins_when_no_ties (k : SortKey) (o : SortOrder)
  (snapshot arranged : list Coin) :
  no_ties k snapshot -> Permutation arranged snapshot ->
  StronglySorted (in_order k o) arranged ->
  sortedCoins snapshot k o = arranged.
Proof.
  intros Hno Hp Hs. apply (sorted_unique (in_order k o)).
  - intros x y Hx Hy Hxy Hyx.
    apply Hno.
    + eapply Permutation_in; [apply sort_perm | exact Hx].
    + eapply Permutation_in; [apply sort_perm | exact Hy].
    + exact (in_order_both_tie k o x y Hxy Hyx).
  - apply sortedCoins_sorted.
  - exact Hs.
  - eapply Permutation_trans; [apply sort_perm|].
    apply Permutation_sym, Hp.
Qed.

Lemma sortedCoins_flip (k : SortKey) (o : SortOrder) (snapshot : list Coin) :
  no_ties k snapshot ->
  sortedCoins snapshot k (flip_order o) = rev (sortedCoins snapshot k o).
Proof.
  intro Hno. apply sortedCoins_when_no_ties; [exact Hno| |].
  - eapply Permutation_trans;
      [apply Permutation_sym, Permutation_rev | apply sort_perm].
  - apply (sorted_weaken (converse (in_order k o))).
    + intros a b Hab. apply in_order_flip. exact Hab.
    + apply sorted_rev_converse, sortedCoins_sorted.
Qed.

(** X1.  A click on the active column keeps the column and flips the
    direction, so that a second click on it restores the state; a click on
    another column makes it the active one with the direction descending.
    A click changes nothing but the selection. *)
Theorem handleSort_clicks (key : SortKey) (s : State) :
  (sortKey s = key -> handleSort key (handleSort key s) = s)
  /\ (sortKey s = key ->
      sortOrder (handleSort key s) = flip_order (sortOrder s))
  /\ (sortKey s <> key -> sortOrder (handleSort key s) = desc)
  /\ sortKey (handleSort key s) = key
  /\ coins (handleSort key s) = coins s
  /\ userThresholds (handleSort key s) = userThresholds s
  /\ soundEnabled (handleSort key s) = soundEnabled s
  /\ error (handleSort key s) = error s
  /\ lastUpdate (handleSort key s) = lastUpdate s.
Proof.
  unfold handleSort.
  destruct (String.eqb (key_name (sortKey s)) (key_name key)) eqn:E.
  - apply key_name_eqb in E. subst key.
    repeat split; try (intros; reflexivity); try (intros H; congruence).
    intros _. simpl.
    assert (E : String.eqb (key_name (sortKey s)) (key_name (sortKey s)) = true)
      by now apply key_name_eqb.
    rewrite E. simpl. rewrite flip_order_involutive. now destruct s.
  - assert (Hne : sortKey s <> key).
    { intro H. apply key_name_eqb in H. congruence. }
    repeat split; try (intros; reflexivity); intros H; contradiction.
Qed.

Lemma handleSort_clicks_witness :
  handleSort key_price (handleSort key_price state_price_asc) = state_price_asc
  /\ sortOrder (handleSort key_price state_price_asc) = desc
  /\ sortOrder (handleSort key_volume state_price_asc) = desc.
Proof.
  destruct (handleSort_clicks key_price state_price_asc) as (H2 & H1 & _).
  destruct (handleSort_clicks key_volume state_price_asc) as (_ & _ & H3 & _).
  split; [apply H2; reflexivity|].
  split; [apply H1; reflexivity|].
  apply H3. discriminate.
Defined.

(** X2.  When no two assets of the snapshot have equal values under the
    active key, a click on the active column shows the table in reverse. *)
Theorem click_reverses_table (s : State) :
  no_ties (sortKey s) (coins s) ->
  table (handleSort (sortKey s) s) = rev (table s).
Proof.
  intro Hno. unfold table, handleSort.
  assert (E : String.eqb (key_name (sortKey s)) (key_name (sortKey s)) = true)
    by now apply key_name_eqb.
  rewrite E. simpl. now apply sortedCoins_flip.
Qed.

Lemma click_reverses_table_witness :
  table (handleSort key_price state_price_asc) = rev (table state_price_asc).
Proof.
  apply (click_reverses_table state_price_asc).
  intros a b [<-|[<-|[]]] [<-|[<-|[]]] [H1 H2];
    try reflexivity; vm_compute in H1, H2; discriminate.
Defined.

(** ** The snapshot under the rank column *)

Lemma tie_rank (a b : Coin) :
  tie (sort_value key_rank a) (sort_value key_rank b) ->
  rank_number a = rank_number b.
Proof.
  unfold tie. simpl. rewrite !ltb_ge, <- !Zle_Qle.
  unfold rank_number. lia.
Qed.

Lemma rank_le_in_order (a b : Coin) :
  rank_le a b -> in_order key_rank asc a b.
Proof.
  unfold rank_le, in_order, num_le, rank_number. simpl.
  rewrite ltb_ge, <- Zle_Qle. tauto.
Qed.

Lemma allCoins_sorted (data1 data2 : list RawCoin) :
  StronglySorted (fun a b : Coin => rank_le a b) (allCoins data1 data2).
Proof.
  apply sorted_of_map. rewrite allCoins_rows. apply sort_by_rank_sorted.
Qed.

Lemma allCoins_no_ties (data1 data2 : list RawCoin) :
  NoDup (map rank_number (data1 ++ data2)) ->
  no_ties key_rank (allCoins data1 data2).
Proof.
  intros Hnd a b Ha Hb Ht.
  apply (NoDup_map_injective (fun c : Coin => rank_number c)
           (allCoins data1 data2)); try assumption.
  - replace (map (fun c : Coin => rank_number c) (allCoins data1 data2))
      with (map rank_number (map row (allCoins data1 data2)))
      by (rewrite map_map; reflexivity).
    rewrite allCoins_rows.
    eapply Permutation_NoDup; [|exact Hnd].
    apply Permutation_map, Permutation_sym, sort_perm.
  - now apply tie_rank.
Qed.

(** X3.  When the ranks of the rows of the two pages are unique, the
    snapshot is its own table under the rank column ascending, and the
    table under the rank column descending, which is the selection the
    component starts with, is the snapshot in reverse: the row of the
    highest rank number comes first. *)
Theorem rank_column_shows_snapshot (data1 data2 : list RawCoin) :
  NoDup (map rank_number (data1 ++ data2)) ->
  sortedCoins (allCoins data1 data2) key_rank asc = allCoins data1 data2
  /\ sortedCoins (allCoins data1 data2) key_rank desc
     = rev (allCoins data1 data2)
  /\ table (cycle initialState 0 (Fulfilled (Some data1))
                                 (Fulfilled (Some data2)))
     = rev (allCoins data1 data2).
Proof.
  intro Hnd.
  pose proof (allCoins_no_ties data1 data2 Hnd) as Hno.
  assert (Hasc : sortedCoins (allCoins data1 data2) key_rank asc
                 = allCoins data1 data2).
  { apply sortedCoins_when_no_ties;
      [exact Hno | apply Permutation_refl|].
    apply (sorted_weaken (fun a b : Coin => rank_le a b));
      [exact rank_le_in_order | apply allCoins_sorted]. }
  assert (Hdesc : sortedCoins (allCoins data1 data2) key_rank desc
                  = rev (allCoins data1 data2)).
  { rewrite <- Hasc at 2.
    exact (sortedCoins_flip key_rank asc (allCoins data1 data2) Hno). }
  split; [exact Hasc|]. split; [exact Hdesc|].
  rewrite cycle_success. unfold table. simpl. exact Hdesc.
Qed.

Lemma rank_column_shows_snapshot_witness :
  sortedCoins (allCoins [row_b; row_c] [row_a]) key_rank desc
  = rev (allCoins [row_b; row_c] [row_a]).
Proof.
  apply (rank_column_shows_snapshot [row_b; row_c] [row_a]).
  vm_compute. repeat constructor; simpl; intuition discriminate.
Defined.

(** ** Rows that share a rank *)

Lemma place_of_rank (r : Z) (pivot : RawCoin) (placed : list RawCoin) :
  of_rank r (Array.place by_rank pivot placed) = of_rank r (pivot :: placed).
Proof.
  unfold of_rank.
  induction placed as [|e rest IH]; [reflexivity|].
  simpl Array.place.
  destruct (Z.ltb_spec (by_rank pivot e) 0) as [Hneg|Hpos];
    [|reflexivity].
  simpl filter in *. rewrite IH.
  unfold by_rank in Hneg. fold (rank_number pivot) (rank_number e) in Hneg.
  destruct (Z.eqb_spec (rank_number pivot) r) as [Ep|Ep],
           (Z.eqb_spec (rank_number e) r) as [Ee|Ee];
    try reflexivity; lia.
Qed.

Lemma fold_place_of_rank (r : Z) (arr placed : list RawCoin) :
  of_rank r
    (fold_left (fun acc pivot => Array.place by_rank pivot acc) arr placed)
  = of_rank r (rev arr ++ placed).
Proof.
  revert placed. induction arr as [|x arr IH]; intro placed; [reflexivity|].
  simpl fold_left. rewrite IH. unfold of_rank in *.
  rewrite filter_app.
  fold (of_rank r (Array.place by_rank x placed)).
  rewrite place_of_rank. unfold of_rank.
  rewrite <- filter_app. simpl rev. now rewrite <- app_assoc.
Qed.

(** X4.  The merge is stable: the rows of the snapshot that share a rank
    number stand in the order of arrival, those of the first page before
    those of the second, each page in its own order. *)
Theorem merge_keeps_arrival_order (data1 data2 : list RawCoin) (r : Z) :
  of_rank r (map row (allCoins data1 data2))
  = of_rank r data1 ++ of_rank r data2.
Proof.
  rewrite allCoins_rows. unfold Array.sort.
  unfold of_rank at 1. rewrite filter_rev.
  fold (of_rank r (fold_left
         (fun acc pivot => Array.place by_rank pivot acc) (data1 ++ data2) [])).
  rewrite fold_place_of_rank, app_nil_r.
  unfold of_rank. rewrite filter_rev, rev_involutive.
  apply filter_app.
Qed.

(** ** What a cycle leaves behind *)

Lemma failed_both (r1 r2 : Response) :
  failed r1 || failed r2 = false ->
  exists d1 d2, r1 = Fulfilled (Some d1) /\ r2 = Fulfilled (Some d2).
Proof.
  intro H. apply orb_false_iff in H. destruct H as [H1 H2].
  destruct r1 as [[d1|]|e1]; try discriminate.
  destruct r2 as [[d2|]|e2]; try discriminate.
  now exists d1, d2.
Qed.

Lemma cycle_cases (s : State) (now : Z) (r1 r2 : Response) :
  (exists d1 d2,
     r1 = Fulfilled (Some d1) /\ r2 = Fulfilled (Some d2)
     /\ failed r1 || failed r2 = false)
  \/ (failed r1 || failed r2 = true
      /\ (failed r1 = true \/ failed r2 = true)).
Proof.
  destruct (failed r1 || failed r2) eqn:E.
  - right. split; [reflexivity|]. now apply orb_true_iff.
  - left. destruct (failed_both r1 r2 E) as (d1 & d2 & -> & ->).
    now exists d1, d2.
Qed.

(** X5.  Whatever the two requests do, a cycle ends with the loading flag
    off; the error message it leaves is empty exactly when both requests
    succeeded; the time of the last update moves exactly then; and the
    cycle touches none of the user's settings (sound, sort selection,
    thresholds). *)
Theorem cycle_outcome (s : State) (now : Z) (r1 r2 : Response) :
  loading (cycle s now r1 r2) = false
  /\ (error (cycle s now r1 r2) = ""%string
      <-> failed r1 || failed r2 = false)
  /\ lastUpdate (cycle s now r1 r2)
     = (if failed r1 || failed r2 then lastUpdate s else Some now)
  /\ soundEnabled (cycle s now r1 r2) = soundEnabled s
  /\ sortKey (cycle s now r1 r2) = sortKey s
  /\ sortOrder (cycle s now r1 r2) = sortOrder s
  /\ userThresholds (cycle s now r1 r2) = userThresholds s.
Proof.
  destruct (cycle_cases s now r1 r2)
    as [(d1 & d2 & -> & -> & E)|(E & Hf)].
  - rewrite cycle_success. simpl. repeat split; reflexivity.
  - rewrite (cycle_failure s now r1 r2 Hf), E. simpl.
    repeat split; try reflexivity; intro H; discriminate.
Qed.

Lemma cycle_outcome_witness :
  error (cycle state_ab 5 (Fulfilled (Some [row_c])) (Fulfilled (Some [row_a])))
  = ""%string
  /\ error (cycle state_ab 5 (Fulfilled None) (Fulfilled (Some [row_a])))
     <> ""%string.
Proof.
  destruct (cycle_outcome state_ab 5 (Fulfilled (Some [row_c]))
              (Fulfilled (Some [row_a]))) as (_ & Hok & _).
  destruct (cycle_outcome state_ab 5 (Fulfilled None)
              (Fulfilled (Some [row_a]))) as (_ & Hbad & _).
  split.
  - apply Hok. reflexivity.
  - intro H. apply Hbad in H. discriminate.
Defined.

(** ** Sequences of events *)

Lemma run_cons (s : State) (e : Event) (events : list Event) :
  run s (e :: events) = run (step s e) events.
Proof. reflexivity. Qed.

Lemma step_no_cycle (s : State) (e : Event) :
  success_of e = None ->
  coins (step s e) = coins s /\ lastUpdate (step s e) = lastUpdate s.
Proof.
  destruct e as [now r1 r2|key| |tf v]; simpl; intro H.
  - destruct (cycle_cases s now r1 r2)
      as [(d1 & d2 & -> & -> & E)|(E & Hf)]; [discriminate|].
    rewrite (cycle_failure s now r1 r2 Hf). split; reflexivity.
  - unfold handleSort.
    destruct (String.eqb _ _); split; reflexivity.
  - split; reflexivity.
  - split; reflexivity.
Qed.

Lemma step_success (s : State) (e : Event) (now : Z)
  (d1 d2 : list RawCoin) :
  success_of e = Some (now, d1, d2) ->
  coins (step s e) = allCoins d1 d2 /\ lastUpdate (step s e) = Some now.
Proof.
  destruct e as [t r1 r2|key| |tf v]; simpl; try discriminate.
  destruct r1 as [[a|]|]; try discriminate.
  destruct r2 as [[b|]|]; try discriminate.
  intro H. inversion H; subst. rewrite cycle_success. split; reflexivity.
Qed.

Lemma run_last_success (s : State) (events : list Event) :
  match last_success events with
  | Some (now, d1, d2) =>
      coins (run s events) = allCoins d1 d2
      /\ lastUpdate (run s events) = Some now
  | None =>
      coins (run s events) = coins s
      /\ lastUpdate (run s events) = lastUpdate s
  end.
Proof.
  revert s. induction events as [|e events IH]; intro s.
  - simpl. split; reflexivity.
  - rewrite run_cons. simpl last_success.
    specialize (IH (step s e)).
    destruct (last_success events) as [[[now d1] d2]|]; [exact IH|].
    destruct IH as [Hc Hl]. rewrite Hc, Hl.
    destruct (success_of e) as [[[now d1] d2]|] eqn:E.
    + exact (step_success s e now d1 d2 E).
    + exact (step_no_cycle s e E).
Qed.

(** X6.  After any sequence of cycles and user actions the snapshot is the
    merge of the pages of the last cycle that succeeded, and the time of
    the last update is the time of that cycle; when no cycle succeeded,
    both are what they were at the start.  Failed cycles and user actions
    in between change neither. *)
Theorem snapshot_of_last_success (s : State) (events : list Event) :
  match last_success events with
  | Some (now, d1, d2) =>
      coins (run s events) = allCoins d1 d2
      /\ lastUpdate (run s events) = Some now
  | None =>
      coins (run s events) = coins s
      /\ lastUpdate (run s events) = lastUpdate s
  end.
Proof. exact (run_last_success s events). Qed.

Lemma step_error (s : State) (e : Event) :
  match e with
  | CycleDone _ r1 r2 =>
      error (step s e) = ""%string <-> failed r1 || failed r2 = false
  | _ => error (step s e) = error s
  end.
Proof.
  destruct e as [now r1 r2|key| |tf v]; simpl; try reflexivity.
  - destruct (cycle_cases s now r1 r2)
      as [(d1 & d2 & -> & -> & E)|(E & Hf)].
    + rewrite cycle_success. simpl. tauto.
    + rewrite (cycle_failure s now r1 r2 Hf), E. simpl.
      split; intro H; discriminate.
  - unfold handleSort. destruct (String.eqb _ _); reflexivity.
Qed.

(** X7.  The error banner reflects the last cycle only: after any sequence
    of events the error message is empty exactly when the last cycle that
    completed succeeded, whatever failed before it and whatever the user
    did after it; when no cycle completed, the message is the one of the
    start. *)
Theorem error_of_last_cycle (s : State) (events : list Event) :
  match last_cycle_failed events with
  | Some b => error (run s events) = ""%string <-> b = false
  | None => error (run s events) = error s
  end.
Proof.
  revert s. induction events as [|e events IH]; intro s.
  - reflexivity.
  - rewrite run_cons. simpl last_cycle_failed.
    specialize (IH (step s e)).
    destruct (last_cycle_failed events) as [b|]; [exact IH|].
    rewrite IH. pose proof (step_error s e) as He.
    destruct e; exact He.
Qed.

(** X8.  Every state the component reaches from its initial state holds a
    snapshot in ascending rank order, and holds rows only if a time of
    last update is recorded: before the first successful cycle the table
    has no rows. *)
Theorem reachable_snapshot_sorted (events : list Event) :
  StronglySorted (fun a b : Coin => rank_le a b)
    (coins (run initialState events))
  /\ (lastUpdate (run initialState events) = None ->
      coins (run initialState events) = []).
Proof.
  pose proof (run_last_success initialState events) as H.
  destruct (last_success events) as [[[now d1] d2]|].
  - destruct H as [Hc Hl]. rewrite Hc, Hl. split.
    + apply allCoins_sorted.
    + discriminate.
  - destruct H as [Hc Hl]. rewrite Hc. simpl. split; [constructor | reflexivity].
Qed.

Lemma error_of_last_cycle_witness :
  error (run state_ab
           [CycleDone 2 (Rejected TimeoutExceeded) (Fulfilled (Some [row_a]));
            ClickSound;
            CycleDone 3 (Fulfilled (Some [row_c])) (Fulfilled (Some [row_a]));
            ClickColumn key_price])
  = ""%string.
Proof.
  pose proof (error_of_last_cycle state_ab
           [CycleDone 2 (Rejected TimeoutExceeded) (Fulfilled (Some [row_a]));
            ClickSound;
            CycleDone 3 (Fulfilled (Some [row_c])) (Fulfilled (Some [row_a]));
            ClickColumn key_price]) as H.
  cbv beta iota delta [last_cycle_failed failed orb] in H.
  apply H. reflexivity.
Defined.

Lemma reachable_snapshot_sorted_witness :
  coins (run initialState
           [ClickSound;
            CycleDone 2 (Rejected NetworkError) (Fulfilled (Some [row_a]));
            MoveSlider tf_4h 12])
  = [].
Proof.
  apply (reachable_snapshot_sorted
           [ClickSound;
            CycleDone 2 (Rejected NetworkError) (Fulfilled (Some [row_a]));
            MoveSlider tf_4h 12]).
  reflexivity.
Defined.

(** ** The two revisions of the fetch cycle *)

(** X9.  The fetch cycle of the component and the one of the earlier
    revision, which awaits the pages one after the other, simulate each
    other: started on states with the same rows and the same time of last
    update and given the same outcomes of the two requests, both end
    loading, both fail or both succeed, and they end again with the same
    rows and time.  The two derived fields are all the later revision
    adds to a row. *)
Theorem revisions_agree (s : State) (s1 : V1Cycle.State) (now : Z)
  (r1 r2 : Response) :
  same_rows s s1 ->
  same_rows (cycle s now r1 r2) (V1Cycle.fetchData now r1 r2 s1)
  /\ loading (cycle s now r1 r2) = false
  /\ V1Cycle.loading (V1Cycle.fetchData now r1 r2 s1) = false
  /\ (error (cycle s now r1 r2) = ""%string
      <-> V1Cycle.error (V1Cycle.fetchData now r1 r2 s1) = ""%string).
Proof.
  intros [Hrows Htime].
  destruct (cycle_cases s now r1 r2)
    as [(d1 & d2 & -> & -> & E)|(E & Hf)].
  - rewrite cycle_success. unfold same_rows. simpl.
    repeat split; try reflexivity. apply allCoins_rows.
  - rewrite (cycle_failure s now r1 r2 Hf). unfold same_rows.
    destruct r1 as [[d1|]|e1], r2 as [[d2|]|e2]; simpl in E;
      try discriminate; simpl;
      repeat split; try assumption; try reflexivity; intro H; discriminate.
Qed.

Lemma revisions_agree_witness :
  same_rows
    (cycle initialState 4 (Fulfilled (Some [row_b])) (Fulfilled (Some [row_a])))
    (V1Cycle.fetchData 4 (Fulfilled (Some [row_b])) (Fulfilled (Some [row_a]))
       V1Cycle.initialState).
Proof.
  apply (revisions_agree initialState V1Cycle.initialState 4
           (Fulfilled (Some [row_b])) (Fulfilled (Some [row_a]))).
  split; reflexivity.
Defined.

(** ** Range of the derived changes *)

Lemma toFixed4_floor (x : Q) : -(100) <= x -> -(100) <= JS.toFixed4 x.
Proof.
  intro Hx. unfold JS.toFixed4.
  destruct (JS.ltb x 0) eqn:E.
  - apply ltb_lt in E.
    pose proof (Qabs_neg x (Qlt_le_weak _ _ E)) as Ha.
    assert (Hy : Qabs x * 10000 + (1 # 2) <= 1000000 + (1 # 2)).
    { set (ax := Qabs x) in *. lra. }
    apply Qfloor_resp_le in Hy.
    change (Qfloor (1000000 + (1 # 2))) with 1000000%Z in Hy.
    set (n := Qfloor (Qabs x * 10000 + (1 # 2))) in *.
    unfold Qle. simpl. lia.
  - assert (Hy : 0 <= Qabs x * 10000 + (1 # 2)).
    { pose proof (Qabs_nonneg x). set (ax := Qabs x) in *. lra. }
    apply Qfloor_resp_le in Hy.
    change (Qfloor 0) with 0%Z in Hy.
    set (n := Qfloor (Qabs x * 10000 + (1 # 2))) in *.
    unfold Qle. simpl. lia.
Qed.

Lemma exact_change_floor (ref nowPrice : Q) :
  0 < ref -> 0 <= nowPrice -> -(100) <= exact_change ref nowPrice.
Proof.
  intros Hr Hn. unfold exact_change.
  assert (Hq : 0 <= nowPrice / ref).
  { unfold Qdiv. apply Qmult_le_0_compat; [exact Hn|].
    apply Qinv_le_0_compat, Qlt_le_weak, Hr. }
  assert (E : (nowPrice - ref) / ref == nowPrice / ref - 1).
  { field. intro H. rewrite H in Hr. exact (Qlt_irrefl _ Hr). }
  rewrite E. set (q := nowPrice / ref) in *. lra.
Qed.

Lemma rounded_change_inv (ref nowPrice q : Q) :
  rounded (change_from ref nowPrice) = Some q ->
  0 < ref /\ q = JS.toFixed4 (exact_change ref nowPrice).
Proof.
  unfold change_from, JS.gtb, exact_change.
  destruct (JS.ltb 0 ref) eqn:E; [|discriminate].
  simpl. intro H. inversion H. split; [now apply ltb_lt | reflexivity].
Qed.

(** X11.  As long as the current price is not negative a derived change is
    never below -100 percent. *)
Theorem derived_change_floor (prices : list Q) (nowPrice q : Q) :
  0 <= nowPrice ->
  (change15m prices nowPrice = Some q -> -(100) <= q)
  /\ (change4h prices nowPrice = Some q -> -(100) <= q).
Proof.
  intro Hn.
  split; intro H; apply rounded_change_inv in H; destruct H as [Hpos ->];
    apply toFixed4_floor, exact_change_floor; assumption.
Qed.

Lemma derived_change_floor_witness :
  -(100) <= (-1000000 # 10000).
Proof.
  destruct (derived_change_floor (200 :: repeat 100 14) 0 (-1000000 # 10000))
    as [H _]; [vm_compute; discriminate|].
  apply H. reflexivity.
Defined.

(** ** Rows with ordinary prices, rows without a sparkline *)

Lemma index_In {A : Type} (arr : list A) (i : Z) (x : A) :
  JS.index arr i = Some x -> In x arr.
Proof.
  unfold JS.index. destruct (i <? 0)%Z; [discriminate|].
  apply nth_error_In.
Qed.

Lemma truthy_nonneg_positive (p : Q) : JS.truthy p = true -> 0 <= p -> 0 < p.
Proof.
  intros Ht Hp. apply truthy_nonzero in Ht.
  apply Qle_lteq in Hp. destruct Hp as [Hp|Hp]; [exact Hp|].
  exfalso. apply Ht. symmetry. exact Hp.
Qed.

Lemma or_num_positive_all (prices : list Q) (x : option Q) (nowPrice : Q) :
  Forall (fun p => 0 <= p) prices ->
  (forall p, x = Some p -> In p prices) ->
  0 < nowPrice -> 0 < JS.or_num x nowPrice.
Proof.
  intros Hall Hin Hnow. destruct x as [p|]; simpl; [|exact Hnow].
  destruct (JS.truthy p) eqn:E; [|exact Hnow].
  apply truthy_nonneg_positive; [exact E|].
  rewrite Forall_forall in Hall. apply Hall, Hin. reflexivity.
Qed.

Lemma rounded_change_available (ref nowPrice : Q) :
  0 < ref -> rounded (change_from ref nowPrice) <> None.
Proof.
  intros H E. apply change_from_unavailable in E.
  exact (Qlt_not_le _ _ H E).
Qed.

(** X12.  For a row whose current price is positive and whose samples are
    not negative, both derived changes are available: the value
    unavailable does not arise from ordinary market data, whatever the
    length of the series. *)
Theorem derived_change_available (prices : list Q) (nowPrice : Q) :
  0 < nowPrice -> Forall (fun p => 0 <= p) prices ->
  change15m prices nowPrice <> None /\ change4h prices nowPrice <> None.
Proof.
  intros Hnow Hall. split.
  - apply rounded_change_available. unfold price15mAgo.
    apply (or_num_positive_all prices); try assumption.
    intros p. apply index_In.
  - apply rounded_change_available. unfold price4hAgo.
    apply (or_num_positive_all prices); try assumption.
    intros p.
    destruct (JS.index prices (JS.length prices - 34)) as [a|] eqn:Ea; simpl.
    + destruct (JS.truthy a).
      * intro H. inversion H; subst. exact (index_In _ _ _ Ea).
      * apply index_In.
    + apply index_In.
Qed.

Lemma derived_change_available_witness :
  change15m [0; 5; 0] 3 <> None /\ change4h [0; 5; 0] 3 <> None.
Proof.
  apply (derived_change_available [0; 5; 0] 3).
  - reflexivity.
  - repeat constructor; vm_compute; discriminate.
Defined.

Lemma class_of_zero (th : Thresholds) (tf : Timeframe) (q : Q) :
  0 < threshold th tf -> q == 0 ->
  getChangeClass th (Some q) tf = class_negative_normal
  /\ crosses (Some q) (threshold th tf) = false.
Proof.
  intros Ht Eq.
  assert (Hge : JS.geb (JS.abs q) (threshold th tf) = false).
  { apply geb_lt. unfold JS.abs. rewrite Eq. exact Ht. }
  assert (Hgt : JS.gtb q 0 = false).
  { unfold JS.gtb. apply ltb_ge. rewrite Eq. apply Qle_refl. }
  split.
  - unfold getChangeClass. now rewrite Hge, Hgt.
  - exact Hge.
Qed.

(** X13.  A row with a positive price whose series has fewer than 15
    samples (none at all, for one) gets the same 15m and 4h change, of
    value zero: with positive thresholds neither horizon of the row crosses
    its threshold, and both cells are classified negative-normal, not
    neutral. *)
Theorem short_series_row (coin : RawCoin) (th : Thresholds) :
  (JS.length (prices_of coin) < 15)%Z -> 0 < current_price coin ->
  0 < threshold th tf_15m -> 0 < threshold th tf_4h ->
  price_change_15m (derive coin) = price_change_4h (derive coin)
  /\ (exists q, price_change_15m (derive coin) = Some q /\ q == 0)
  /\ crosses (price_change_15m (derive coin)) (threshold th tf_15m) = false
  /\ crosses (price_change_4h (derive coin)) (threshold th tf_4h) = false
  /\ getChangeClass th (price_change_15m (derive coin)) tf_15m
     = class_negative_normal
  /\ getChangeClass th (price_change_4h (derive coin)) tf_4h
     = class_negative_normal.
Proof.
  intros Hlen Hnow H15 H4. simpl.
  assert (E15 : change15m (prices_of coin) (current_price coin)
                = rounded (change_from (current_price coin) (current_price coin))).
  { unfold change15m, price15mAgo.
    now rewrite (index_short (prices_of coin) 15 Hlen). }
  assert (E4 : change4h (prices_of coin) (current_price coin)
               = rounded (change_from (current_price coin) (current_price coin))).
  { unfold change4h, price4hAgo.
    rewrite (index_short (prices_of coin) 34) by lia.
    now rewrite (index_short (prices_of coin) 30) by lia. }
  rewrite E15, E4.
  destruct (change_from_self (current_price coin) Hnow) as (q & -> & Eq).
  destruct (class_of_zero th tf_15m q H15 Eq) as [Hc15 Hx15].
  destruct (class_of_zero th tf_4h q H4 Eq) as [Hc4 Hx4].
  split; [reflexivity|].
  split; [now exists q|].
  repeat split; assumption.
Qed.

Lemma short_series_row_witness :
  getChangeClass defaultThresholds (price_change_15m (derive row_a)) tf_15m
  = class_negative_normal
  /\ crosses (price_change_4h (derive row_a)) (threshold defaultThresholds tf_4h)
     = false.
Proof.
  destruct (short_series_row row_a defaultThresholds)
    as (_ & _ & _ & Hx & Hc & _); try reflexivity.
  split; [exact Hc | exact Hx].
Defined.

(** ** The alert signal, the order of the rows and the sliders *)

Lemma existsb_perm {A : Type} (f : A -> bool) (l l' : list A) :
  Permutation l l' -> existsb f l = existsb f l'.
Proof.
  intro Hp.
  destruct (existsb f l) eqn:E, (existsb f l') eqn:E'; try reflexivity.
  - apply existsb_exists in E. destruct E as (x & Hin & Hx).
    assert (existsb f l' = true)
      by (apply existsb_exists; exists x; split;
          [eapply Permutation_in; eassumption | exact Hx]).
    congruence.
  - apply existsb_exists in E'. destruct E' as (x & Hin & Hx).
    assert (existsb f l = true)
      by (apply existsb_exists; exists x; split;
          [eapply Permutation_in; [apply Permutation_sym|]; eassumption
          | exact Hx]).
    congruence.
Qed.

Lemma crosses_lower (v : option Q) (t t' : Q) :
  t <= t' -> crosses v t' = true -> crosses v t = true.
Proof.
  intros Hle H. apply crosses_true in H. destruct H as (x & -> & Hx).
  apply crosses_true. exists x. split; [reflexivity|].
  exact (Qle_trans _ _ _ Hle Hx).
Qed.

(** X14.  The alert signal does not depend on the order of the rows: it is
    the same on the table as it is shown, under any sort selection, as on
    the snapshot. *)
Theorem alert_ignores_sorting (s : State) :
  bigMove (table s) (userThresholds s) = bigMove (coins s) (userThresholds s).
Proof.
  unfold bigMove, table. apply existsb_perm, sort_perm.
Qed.

(** X15.  Lowering thresholds can only turn the alert on: a snapshot that
    raises the signal under thresholds [th'] raises it under any
    thresholds that are not higher on the horizons 15m, 1h and 4h. *)
Theorem alert_monotone (snapshot : list Coin) (th th' : Thresholds) :
  (forall tf, fast tf = true -> threshold th tf <= threshold th' tf) ->
  bigMove snapshot th' = true -> bigMove snapshot th = true.
Proof.
  intros Hle H. unfold bigMove in *.
  apply existsb_exists in H. destruct H as (c & Hin & Hc).
  apply existsb_exists. exists c. split; [exact Hin|].
  apply orb_true_iff in Hc. destruct Hc as [Hc|Hc];
    [apply orb_true_iff in Hc; destruct Hc as [Hc|Hc]|].
  - rewrite (crosses_lower _ _ _ (Hle tf_15m eq_refl) Hc). reflexivity.
  - rewrite (crosses_lower _ _ _ (Hle tf_1h eq_refl) Hc).
    now rewrite orb_true_r.
  - rewrite (crosses_lower _ _ _ (Hle tf_4h eq_refl) Hc).
    now rewrite orb_true_r.
Qed.

Lemma alert_monotone_witness :
  bigMove [coin_a; coin_c] (with_threshold defaultThresholds tf_1h 2) = true.
Proof.
  apply (alert_monotone [coin_a; coin_c]
           (with_threshold defaultThresholds tf_1h 2) defaultThresholds).
  - intros tf _. destruct tf; vm_compute; discriminate.
  - reflexivity.
Defined.

(** X16.  A slider sets the threshold of its own horizon and leaves the
    four others as they are, so that the value read back for a horizon is
    the last one set for it.  The sliders of the horizons 24h and 7d have
    no effect on the alert signal. *)
Theorem slider_sets_one_threshold (s : State) (tf tf' : Timeframe) (v : Q) :
  threshold (userThresholds (slide tf v s)) tf = v
  /\ (tf' <> tf ->
      threshold (userThresholds (slide tf v s)) tf'
      = threshold (userThresholds s) tf')
  /\ (forall w, slide tf v (slide tf w s) = slide tf v s)
  /\ coins (slide tf v s) = coins s
  /\ (fast tf = false ->
      bigMove (coins (slide tf v s)) (userThresholds (slide tf v s))
      = bigMove (coins s) (userThresholds s)).
Proof.
  split; [destruct tf; reflexivity|].
  split; [intro Hne; destruct tf, tf'; try reflexivity; contradiction|].
  split; [intro w; destruct tf; reflexivity|].
  split; [reflexivity|].
  intro Hslow. destruct tf; try discriminate; reflexivity.
Qed.

Lemma slider_sets_one_threshold_witness :
  threshold (userThresholds (slide tf_24h 20 state_muted)) tf_1h
  = threshold (userThresholds state_muted) tf_1h
  /\ bigMove (coins (slide tf_24h 20 state_muted))
       (userThresholds (slide tf_24h 20 state_muted))
     = bigMove (coins state_muted) (userThresholds state_muted).
Proof.
  destruct (slider_sets_one_threshold state_muted tf_24h tf_1h 20)
    as (_ & Hother & _ & _ & Hslow).
  split; [apply Hother; discriminate | apply Hslow; reflexivity].
Defined.

(** ** The two revisions of the classifier *)

(** X17.  On the horizons the earlier revision has, and with the default
    thresholds, the two classifiers agree on every present change other
    than zero and on [null]: the class of the component is the class of
    the earlier revision, followed by [animate-pulse] when the cell is
    flagged. *)
Theorem classifiers_agree (timeframe : V1.Timeframe) (v : Q) :
  (~ v == 0 ->
   getChangeClass defaultThresholds (Some v) (timeframe_of_V1 timeframe)
   = (V1.getChangeClass (Some v) timeframe
      ++ (if flagged (getChangeClass defaultThresholds (Some v)
                        (timeframe_of_V1 timeframe))
          then " animate-pulse" else ""))%string)
  /\ getChangeClass defaultThresholds None (timeframe_of_V1 timeframe)
     = V1.getChangeClass None timeframe.
Proof.
  split; [|reflexivity].
  intro Hv. rewrite flagged_class.
  unfold getChangeClass, V1.getChangeClass, V1.falsy.
  apply truthy_nonzero in Hv. rewrite Hv. simpl negb. cbv iota.
  replace (threshold defaultThresholds (timeframe_of_V1 timeframe))
    with (V1.thresholds timeframe) by (destruct timeframe; reflexivity).
  destruct (JS.geb (JS.abs v) (V1.thresholds timeframe)), (JS.gtb v 0);
    reflexivity.
Qed.

Lemma classifiers_agree_witness :
  getChangeClass defaultThresholds (Some 7) tf_1h
  = (V1.getChangeClass (Some 7) V1.tf_1h ++ " animate-pulse")%string.
Proof.
  destruct (classifiers_agree V1.tf_1h 7) as [H _].
  apply H. vm_compute. discriminate.
Defined.

(** ** The sign of a derived change *)

Lemma toFixed4_digits_nonneg (x : Q) :
  (0 <= Qfloor (Qabs x * 10000 + (1 # 2)))%Z.
Proof.
  assert (Hy : 0 <= Qabs x * 10000 + (1 # 2)).
  { pose proof (Qabs_nonneg x). set (ax := Qabs x) in *. lra. }
  apply Qfloor_resp_le in Hy. exact Hy.
Qed.

Lemma toFixed4_negative (x : Q) : JS.toFixed4 x < 0 -> x < 0.
Proof.
  unfold JS.toFixed4. pose proof (toFixed4_digits_nonneg x) as Hn.
  set (n := Qfloor (Qabs x * 10000 + (1 # 2))) in *.
  destruct (JS.ltb x 0) eqn:E; [intros _; now apply ltb_lt|].
  unfold Qlt. simpl. lia.
Qed.

Lemma toFixed4_positive (x : Q) : 0 < JS.toFixed4 x -> 0 < x.
Proof.
  unfold JS.toFixed4. pose proof (toFixed4_digits_nonneg x) as Hn.
  pose proof (Qfloor_le (Qabs x * 10000 + (1 # 2))) as Hlo.
  set (n := Qfloor (Qabs x * 10000 + (1 # 2))) in *.
  destruct (JS.ltb x 0) eqn:E; [unfold Qlt; simpl; lia|].
  apply ltb_ge in E. intro Hpos.
  assert (Hn1 : (1 <= n)%Z) by (unfold Qlt in Hpos; simpl in Hpos; lia).
  rewrite Zle_Qle in Hn1. change (inject_Z 1) with 1 in Hn1.
  pose proof (Qabs_pos x E) as Ha.
  set (N := inject_Z n) in *. set (ax := Qabs x) in *. lra.
Qed.

Lemma exact_change_sign (ref nowPrice : Q) :
  0 < ref ->
  (0 < exact_change ref nowPrice -> ref < nowPrice)
  /\ (exact_change ref nowPrice < 0 -> nowPrice < ref).
Proof.
  intro Hr. unfold exact_change, Qdiv.
  assert (Hc : 0 < / ref * 100).
  { pose proof (Qinv_lt_0_compat ref Hr). set (i := / ref) in *. lra. }
  assert (E : (nowPrice - ref) * / ref * 100
              == (nowPrice - ref) * (/ ref * 100)) by ring.
  rewrite E. set (c := / ref * 100) in *. split; intro H.
  - apply Qnot_le_lt. intro Hle.
    assert (Hd : nowPrice - ref <= 0) by lra.
    pose proof (Qmult_le_compat_r _ _ c Hd (Qlt_le_weak _ _ Hc)) as Hm.
    rewrite Qmult_0_l in Hm. exact (Qlt_not_le _ _ H Hm).
  - apply Qnot_le_lt. intro Hle.
    assert (Hd : 0 <= nowPrice - ref) by lra.
    pose proof (Qmult_le_compat_r _ _ c Hd (Qlt_le_weak _ _ Hc)) as Hm.
    rewrite Qmult_0_l in Hm. exact (Qlt_not_le _ _ H Hm).
Qed.

(** X18.  The sign of a derived change is the direction of the price: a
    positive change (a green cell) is shown only if the current price is
    above the reference price, a negative one only if it is below.  The
    converse does not hold for moves below half a unit of the fourth
    decimal, which are shown as zero. *)
Theorem derived_change_sign (prices : list Q) (nowPrice q : Q) :
  (change15m prices nowPrice = Some q ->
     (0 < q -> price15mAgo prices nowPrice < nowPrice)
     /\ (q < 0 -> nowPrice < price15mAgo prices nowPrice))
  /\ (change4h prices nowPrice = Some q ->
     (0 < q -> price4hAgo prices nowPrice < nowPrice)
     /\ (q < 0 -> nowPrice < price4hAgo prices nowPrice)).
Proof.
  split; intro H; apply rounded_change_inv in H; destruct H as [Hpos ->];
    destruct (exact_change_sign _ nowPrice Hpos) as [Hup Hdown];
    (split; intro Hq;
     [apply Hup, toFixed4_positive, Hq | apply Hdown, toFixed4_negative, Hq]).
Qed.

Lemma derived_change_sign_witness :
  price15mAgo series15 100 < 100
  /\ 100 < price15mAgo (200 :: repeat 100 14) 100.
Proof.
  destruct (derived_change_sign series15 100 (1000000 # 10000)) as [Hup _].
  destruct (derived_change_sign (200 :: repeat 100 14) 100 (-500000 # 10000))
    as [Hdown _].
  split.
  - apply Hup; reflexivity.
  - apply Hdown; reflexivity.
Defined.

(** ** Sorting what is sorted *)

(** X19.  When no two assets of the snapshot have equal values under the
    key, sorting the sorted table again with the same selection leaves it
    as it is. *)
Theorem sorting_twice (snapshot : list Coin) (k : SortKey) (o : SortOrder) :
  no_ties k snapshot ->
  sortedCoins (sortedCoins snapshot k o) k o = sortedCoins snapshot k o.
Proof.
  intro Hno. apply sortedCoins_when_no_ties.
  - intros a b Ha Hb. apply Hno.
    + eapply Permutation_in; [apply sort_perm | exact Ha].
    + eapply Permutation_in; [apply sort_perm | exact Hb].
  - apply Permutation_refl.
  - apply sortedCoins_sorted.
Qed.

Lemma sorting_twice_witness :
  sortedCoins (sortedCoins [coin_a; coin_c] key_price desc) key_price desc
  = sortedCoins [coin_a; coin_c] key_price desc.
Proof.
  apply (sorting_twice [coin_a; coin_c] key_price desc).
  intros a b [<-|[<-|[]]] [<-|[<-|[]]] [H1 H2];
    try reflexivity; vm_compute in H1, H2; discriminate.
Defined.

(** ** The fetch cycle on any body *)

Section SortMap.
Context {A B : Type}.
Variable f : A -> B.
Variable compareA : A -> A -> Z.
Variable compareB : B -> B -> Z.
Hypothesis compare_map : forall x y, compareB (f x) (f y) = compareA x y.

Lemma place_map (pivot : A) (placed : list A) :
  Array.place compareB (f pivot) (map f placed)
  = map f (Array.place compareA pivot placed).
Proof.
  induction placed as [|e rest IH]; [reflexivity|].
  simpl. rewrite compare_map.
  destruct (compareA pivot e <? 0)%Z; simpl; [now rewrite IH | reflexivity].
Qed.

Lemma fold_place_map (arr placed : list A) :
  fold_left (fun acc pivot => Array.place compareB pivot acc)
    (map f arr) (map f placed)
  = map f (fold_left (fun acc pivot => Array.place compareA pivot acc)
             arr placed).
Proof.
  revert placed. induction arr as [|x arr IH]; intro placed; [reflexivity|].
  simpl. rewrite place_map. apply IH.
Qed.

Lemma sort_map (arr : list A) :
  Array.sort compareB (map f arr) = map f (Array.sort compareA arr).
Proof.
  unfold Array.sort. rewrite map_rev. f_equal.
  exact (fold_place_map arr []).
Qed.

End SortMap.

(** On the responses of the typed model the cycle on any body is the
    cycle of the typed model. *)
Lemma untyped_cycle_on_rows (s : State) (now : Z) (r1 r2 : Response) :
  Untyped.fetchData now (untyped_response r1) (untyped_response r2)
    (untyped_state s)
  = untyped_state (cycle s now r1 r2).
Proof.
  destruct (cycle_cases s now r1 r2)
    as [(d1 & d2 & -> & -> & E)|(E & Hf)].
  - rewrite cycle_success. unfold untyped_state, Untyped.fetchData. simpl.
    f_equal. rewrite <- map_app.
    rewrite (sort_map Untyped.Row by_rank Untyped.compare_items)
      by reflexivity.
    unfold allCoins. rewrite !map_map. reflexivity.
  - rewrite (cycle_failure s now r1 r2 Hf).
    destruct r1 as [[d1|]|e1], r2 as [[d2|]|e2]; simpl in E;
      try discriminate; reflexivity.
Qed.



